(** * nmap2csv: aggregation and ranking of an Nmap XML report

    A shallow embedding of [main.go].  The program decodes an Nmap XML
    report into [NmapRun] and prints one of three views of it: the hosts
    with their open ports ([-hostname]), the open ports with the number of
    times they occur ([-port]), and the NIC vendors with the number of MAC
    addresses they own ([-vendor]).

    Integers: every [int] of the program is a 64-bit Go [int].  [PortID] is
    read from the report and is any such integer.  The counters
    ([countOpen], [PortInfo.Count], the values of [vendorMap]) start at 0
    and grow by one per element of a slice of the decoded report:
    [countOpen] is at most [len(h.Ports)], itself an [int]; a [Count] is at
    most the number of [Port] values and a value of [vendorMap] at most the
    number of [Address] values of the report, which hold several machine
    words each and fit in a 64-bit address space, so are fewer than 2^63.
    No increment wraps, and the counters are exact integers of [Z]. *)

From Stdlib Require Import ZArith String Ascii List Sorted Permutation Lia DecimalString.
From Stdlib Require DecimalZ DecimalPos.
From stdpp Require Import base option list strings gmap fin_maps.
From stdpp Require sorting.

Local Open Scope Z_scope.
Local Open Scope string_scope.

(** ** The Go library functions the program calls *)

Module Go.

(** [strconv.Itoa], also what [fmt.Sprint] and the verb [%d] print for an
    [int]: the decimal digits, without leading zeros, after a minus sign
    for a negative number. *)
Definition Itoa (n : Z) : string := NilZero.string_of_int (Z.to_int n).

(** [strings.Join]. *)
Definition Join (elems : list string) (sep : string) : string :=
  String.concat sep elems.

(** [strings.Split s sep] for a separator of one byte, the only use the
    program makes of it ([","]).  The result is never empty: a string
    without separator, the empty string too, is its own single field. *)
Fixpoint Split (s : string) (sep : ascii) : list string :=
  match s with
  | EmptyString => [EmptyString]
  | String c s' =>
      if Ascii.eqb c sep then EmptyString :: Split s' sep
      else match Split s' sep with
           | field :: fields => String c field :: fields
           | [] => [String c EmptyString]
           end
  end.

(** White space as [unicode.IsSpace] defines it, on the UTF-8 bytes of a
    Go string: the six ASCII characters of [asciiSpace], and the encodings
    of U+0085, U+00A0, U+1680, U+2000..U+200A, U+2028, U+2029, U+202F,
    U+205F and U+3000.  [space_prefix bs] is the number of bytes of the
    white-space character [bs] starts with, 0 when it starts with none. *)
Definition asciiSpace (b : N) : bool :=
  ((9 <=? b) && (b <=? 13) || (b =? 32))%N.

Definition space_prefix (bs : list N) : nat :=
  match bs with
  | b :: rest =>
      if asciiSpace b then 1%nat
      else match b, rest with
           | 194, (133 | 160) :: _ => 2%nat
           | 225, 154 :: 128 :: _ => 3%nat
           | 226, 128 :: b2 :: _ =>
               if ((128 <=? b2) && (b2 <=? 138) || (b2 =? 168) || (b2 =? 169)
                   || (b2 =? 175))%N then 3%nat else 0%nat
           | 226, 129 :: 159 :: _ => 3%nat
           | 227, 128 :: 128 :: _ => 3%nat
           | _, _ => 0%nat
           end%N
  | [] => 0%nat
  end.

(** The same from the end of the string, on the reversed bytes (what
    [utf8.DecodeLastRuneInString] finds). *)
Definition space_suffix (rbs : list N) : nat :=
  match rbs with
  | b :: rest =>
      if asciiSpace b then 1%nat
      else match b, rest with
           | (133 | 160), 194 :: _ => 2%nat
           | 128, 154 :: 225 :: _ => 3%nat
           | b2, 128 :: 226 :: _ =>
               if ((128 <=? b2) && (b2 <=? 138) || (b2 =? 168) || (b2 =? 169)
                   || (b2 =? 175))%N then 3%nat else 0%nat
           | 159, 129 :: 226 :: _ => 3%nat
           | 128, 128 :: 227 :: _ => 3%nat
           | _, _ => 0%nat
           end%N
  | [] => 0%nat
  end.

(** [strings.TrimLeftFunc s unicode.IsSpace] on bytes; [fuel] bounds the
    number of characters removed and is the length of the list. *)
Fixpoint trim_with (width : list N -> nat) (fuel : nat) (bs : list N) : list N :=
  match fuel with
  | O => bs
  | S fuel' =>
      match width bs with
      | O => bs
      | w => trim_with width fuel' (drop w bs)
      end
  end.

Definition bytes_of (s : string) : list N := map N_of_ascii (list_ascii_of_string s).
Definition string_of (bs : list N) : string :=
  string_of_list_ascii (map ascii_of_N bs).

(** [strings.TrimSpace]: leading white space is removed, then trailing
    white space. *)
Definition TrimSpace (s : string) : string :=
  let bs := bytes_of s in
  let left := trim_with space_prefix (length bs) bs in
  let rleft := rev left in
  string_of (rev (trim_with space_suffix (length rleft) rleft)).

End Go.

(** ** The decoded report (the [xml] structs of the program) *)

Module Address.
Record t := mk { Addr : string; AddrType : string; Vendor : string }.
End Address.

Module Hostname.
Record t := mk { Name : string }.
End Hostname.

Module State.
Record t := mk { State : string }.
End State.

Module Service.
Record t := mk { Name : string }.
End Service.

Module Port.
Record t := mk { Protocol : string; PortID : Z; State : State.t; Service : Service.t }.
End Port.

Module Host.
Record t := mk { Addresses : list Address.t; Hostnames : list Hostname.t;
                 Ports : list Port.t }.
End Host.

Module NmapRun.
Record t := mk { Hosts : list Host.t }.
End NmapRun.

(** ** The rows of the three views *)

Module HostInfo.
Record t := mk { Hostname : string; IPv4 : string; MAC : string; Vendor : string;
                 CountOpen : Z; Ports : string }.
End HostInfo.

Module PortInfo.
Record t := mk { Key : string; Service : string; Count : Z }.
End PortInfo.

Module VendorInfo.
Record t := mk { Name : string; Count : Z }.
End VendorInfo.

(** ** What the Go runtime leaves open

    Two library behaviours the program relies on are specified by Go only up
    to a contract.  [range] over a map visits every entry once, in an order
    that "is not specified and is not guaranteed to be the same from one
    iteration to the next".  [sort.Slice] returns the elements reordered so
    that no element sorts before its predecessor, and "is not guaranteed to
    be stable"; it asks of [less] that it be a strict weak ordering.  A
    [GoRuntime] is one admissible pair of choices: the order [range] takes
    in one run of the program, which ranges at most once, over one map, and
    the sort of the library the program is built with.  The program is a
    function of the runtime it runs on.  The order Go takes over a map
    depends on more than the contents of the map (the insertions that built
    it, a random start): two runs of the program are two runtimes, also
    when they build the same map. *)

Record StrictWeak {A : Type} (less : A -> A -> bool) : Prop := {
  less_irrefl : forall a, less a a = false;
  less_trans : forall a b c, less a b = true -> less b c = true -> less a c = true;
  less_negtrans : forall a b c, less a b = false -> less b c = false -> less a c = false
}.

Record GoRuntime : Type := {
  map_range : forall V : Type, gmap string V -> list (string * V);
  map_range_perm : forall V (m : gmap string V), map_range V m ≡ₚ map_to_list m;
  sort_Slice : forall A : Type, (A -> A -> bool) -> list A -> list A;
  sort_Slice_perm : forall A less (x : list A), sort_Slice A less x ≡ₚ x;
  sort_Slice_sorted : forall A less (x : list A),
      StrictWeak less -> Sorted (fun a b => less b a = false) (sort_Slice A less x)
}.
Arguments map_range _ {V} _.
Arguments sort_Slice _ {A} _ _.

(** [insertionSort] is the loop of [insertionSort_func], the sort Go runs
    on a short slice: each element in turn moves left past the elements it
    sorts before.  [sink less x rprefix] works on the sorted prefix in
    reverse, nearest neighbour first. *)
Fixpoint sink {A} (less : A -> A -> bool) (x : A) (rprefix : list A) : list A :=
  match rprefix with
  | [] => [x]
  | y :: rest => if less x y then y :: sink less x rest else x :: y :: rest
  end.

Definition insertionSort {A} (less : A -> A -> bool) (x : list A) : list A :=
  rev (fold_left (fun rprefix a => sink less a rprefix) x []).

(** [sort.Slice] itself is one function, the same in every run: the
    pattern-defeating quicksort of the Go library ([pdqsort_func] of package
    [sort], Go 1.19 and later).  On a slice of at most 12 elements it is the
    insertion sort above.  On 13 elements it chooses a pivot, returns at
    once when the slice is in order, and else partitions once around the
    pivot and sorts the two sides, each of at most 12 elements, by
    insertion.  The definitions below follow that code for these lengths;
    on longer slices the library goes on partitioning the sides, which is
    not modelled: [sort_Slice_Go] is the library's function up to 13
    elements, and beyond that a sort that meets the same contract. *)

(** [data.Swap(i, j)]. *)
Definition swap_elems {A} (i j : nat) (data : list A) : list A :=
  match data !! i, data !! j with
  | Some x, Some y => <[i := y]> (<[j := x]> data)
  | _, _ => data
  end.

(** [order2_func]: the two indices, the one of the element that sorts
    first in front, and the count of swaps. *)
Definition order2 {A} (less : A -> A -> bool) (data : list A) (a b swaps : nat)
  : nat * nat * nat :=
  match data !! b, data !! a with
  | Some y, Some x => if less y x then (b, a, S swaps) else (a, b, swaps)
  | _, _ => (a, b, swaps)
  end.

(** [median_func]: the index of the median of three elements. *)
Definition median {A} (less : A -> A -> bool) (data : list A) (a b c swaps : nat)
  : nat * nat :=
  let '(a, b, swaps) := order2 less data a b swaps in
  let '(b, c, swaps) := order2 less data b c swaps in
  let '(a, b, swaps) := order2 less data a b swaps in
  (b, swaps).

(** [choosePivot_func] on a slice of fewer than 50 elements: the index
    of the pivot and the number of swaps the choice took (none: the hint
    [increasingHint]). *)
Definition choosePivot {A} (less : A -> A -> bool) (data : list A) : nat * nat :=
  let l := length data in
  let i := (l / 4 * 1)%nat in
  let j := (l / 4 * 2)%nat in
  let k := (l / 4 * 3)%nat in
  if (8 <=? l)%nat then median less data i j k 0%nat else (j, 0%nat).

(** [partialInsertionSort_func] on a slice of fewer than 50 elements
    moves nothing and reports whether no element sorts before its
    predecessor. *)
Fixpoint in_order {A} (less : A -> A -> bool) (data : list A) : bool :=
  match data with
  | x :: (y :: _) as rest => negb (less y x) && in_order less rest
  | _ => true
  end.

(** The longest prefix whose elements pass a test, and the rest. *)
Fixpoint span {A} (test : A -> bool) (l : list A) : list A * list A :=
  match l with
  | x :: l' =>
      if test x then let '(pre, rest) := span test l' in (x :: pre, rest)
      else ([], l)
  | [] => ([], [])
  end.

(** The two-index loop of [partition_func] on [data[i..j]], with the
    pivot [p] at [data[a]]: [i] moves right over the elements that sort
    before [p], [j] moves left over those that do not; when the indices have
    not crossed, [data[i]] and [data[j]] are swapped and the loop goes on
    between them.  The result is the elements left of the crossing point
    and those right of it, as they lie in the slice.  [fuel] is the length
    of the range. *)
Fixpoint hoare {A} (less : A -> A -> bool) (p : A) (fuel : nat) (range : list A)
  : list A * list A :=
  let '(front, rest) := span (fun x => less x p) range in
  let '(rback, rrest) := span (fun y => negb (less y p)) (rev rest) in
  match rrest with
  | [] => (front, rev rback)
  | y :: rmid =>
      match rev rmid, fuel with
      | x :: mid, S fuel' =>
          let '(lows, highs) := hoare less p fuel' mid in
          ((front ++ y :: lows)%list, (highs ++ x :: rev rback)%list)
      | _, _ => ((front ++ [y])%list, rev rback)
      end
  end.

(** [partition_func] on the whole slice: the pivot goes to the front, the
    loop runs on the rest, and the pivot is swapped with the last element of
    the left part.  The result is the new index of the pivot and the
    slice. *)
Definition partitionLess {A} (less : A -> A -> bool) (data : list A) (pivot : nat)
  : nat * list A :=
  match swap_elems 0 pivot data with
  | p :: range =>
      let '(lows, highs) := hoare less p (length range) range in
      (length lows, swap_elems (length lows) 0 (p :: lows ++ highs))
  | [] => (0%nat, [])
  end.

(** One turn of the loop of [pdqsort_func] on a whole slice, the recursive
    call and the next turn sorting by insertion. *)
Definition pdqsort_once {A} (less : A -> A -> bool) (data : list A) : list A :=
  let '(pivot, swaps) := choosePivot less data in
  if (swaps =? 0)%nat && in_order less data then data
  else
    let '(mid, data) := partitionLess less data pivot in
    (insertionSort less (take mid data) ++ take 1 (drop mid data)
       ++ insertionSort less (drop (S mid) data))%list.

Definition sort_Slice_Go {A} (less : A -> A -> bool) (data : list A) : list A :=
  if (length data <=? 12)%nat then insertionSort less data else pdqsort_once less data.

(** A runtime whose [sort.Slice] is the one of the Go library, as far as
    [sort_Slice_Go] follows it. *)
Definition SortsAsGo (E : GoRuntime) : Prop :=
  forall (A : Type) (less : A -> A -> bool) (x : list A),
    (length x <= 13)%nat -> sort_Slice E less x = sort_Slice_Go less x.

(** ** The program: [main]

    [main] has one body; its three mode blocks are the three functions
    [hostname_mode], [port_mode] and [vendor_mode] below, each named after
    the flag that selects it, and the loops inside a block are the folds
    named after the variables they update. *)

Definition TAB : string := String (ascii_of_nat 9) EmptyString.
Definition NL : string := String (ascii_of_nat 10) EmptyString.

(** The state of a port is compared with ["open"], an address type with
    ["ipv4"] and ["mac"]. *)
Definition is_open (p : Port.t) : bool :=
  String.eqb (State.State (Port.State p)) "open".

(** [m[k]] on a [map[string]bool]: [false] for a key that is absent. *)
Definition index_bool (m : gmap string bool) (k : string) : bool :=
  default false (m !! k).

(** [m[k]] on a [map[string]int]: 0 for a key that is absent. *)
Definition index_int (m : gmap string Z) (k : string) : Z :=
  default 0 (m !! k).

(** *** Mode 1: [-hostname -whereport] *)

(** [portSet], filled by the loop over the fields [strings.Split] cuts the
    [-whereport] string into at each comma. *)
Definition portSet (wherePorts : string) : gmap string bool :=
  fold_left (fun set p => <[Go.TrimSpace p := true]> set)
            (Go.Split wherePorts ","%char) ∅.

(** [hostname]: the name of the first host name, when there is one. *)
Definition hostname_of (h : Host.t) : string :=
  match Host.Hostnames h with
  | n :: _ => Hostname.Name n
  | [] => ""
  end.

(** The loop over [h.Addresses], on the variables [(ipv4, mac, vendor)]. *)
Definition address_step (acc : string * string * string) (a : Address.t)
  : string * string * string :=
  let '(ipv4, mac, vendor) := acc in
  let ipv4 := if String.eqb (Address.AddrType a) "ipv4" then Address.Addr a else ipv4 in
  if String.eqb (Address.AddrType a) "mac"
  then (ipv4, Address.Addr a, Address.Vendor a)
  else (ipv4, mac, vendor).

Definition scan_addresses (addrs : list Address.t) : string * string * string :=
  fold_left address_step addrs ("", "", "").

(** The loop over [h.Ports], on the variables [(countOpen, match, openPort)]. *)
Definition port_step (showAllPort : bool) (set : gmap string bool)
    (acc : Z * bool * list string) (p : Port.t) : Z * bool * list string :=
  let '(countOpen, matched, openPort) := acc in
  if is_open p then
    if showAllPort || index_bool set (Go.Itoa (Port.PortID p))
    then (countOpen + 1, true, (openPort ++ [Go.Itoa (Port.PortID p)])%list)
    else (countOpen + 1, matched, openPort)
  else (countOpen, matched, openPort).

Definition scan_ports (showAllPort : bool) (set : gmap string bool)
    (ports : list Port.t) : Z * bool * list string :=
  fold_left (port_step showAllPort set) ports (0, false, []).

(** The body of the loop over [nmap.Hosts]: the row of [h] is appended to
    [results] when [match] is set. *)
Definition host_step (showAllPort : bool) (set : gmap string bool)
    (results : list HostInfo.t) (h : Host.t) : list HostInfo.t :=
  let hostname := hostname_of h in
  let '(ipv4, mac, vendor) := scan_addresses (Host.Addresses h) in
  let '(countOpen, matched, openPort) := scan_ports showAllPort set (Host.Ports h) in
  if matched
  then (results ++ [HostInfo.mk hostname ipv4 mac vendor countOpen (Go.Join openPort ",")])%list
  else results.

Definition host_results (wherePorts : string) (nmap : NmapRun.t) : list HostInfo.t :=
  let showAllPort := (String.length wherePorts =? 0)%nat in
  fold_left (host_step showAllPort (portSet wherePorts)) (NmapRun.Hosts nmap) [].

Definition more_open (a b : HostInfo.t) : bool :=
  HostInfo.CountOpen a >? HostInfo.CountOpen b.

(** [results] after [sort.Slice]: the rows of hostname mode, as printed. *)
Definition hostname_mode (E : GoRuntime) (wherePorts : string) (nmap : NmapRun.t)
  : list HostInfo.t :=
  sort_Slice E more_open (host_results wherePorts nmap).

(** *** Mode 2: [-port] *)

(** [fmt.Sprintf("%d/%s", p.PortID, p.Protocol)]. *)
Definition port_key (p : Port.t) : string :=
  Go.Itoa (Port.PortID p) ++ "/" ++ Port.Protocol p.

Definition incr_Count (v : PortInfo.t) : PortInfo.t :=
  PortInfo.mk (PortInfo.Key v) (PortInfo.Service v) (PortInfo.Count v + 1).

(** The body of the inner loop: an open port creates the entry of its key
    when the key is new, then increments the entry's [Count]. *)
Definition portMap_step (portMap : gmap string PortInfo.t) (p : Port.t)
  : gmap string PortInfo.t :=
  if is_open p then
    let key := port_key p in
    let portMap :=
      match portMap !! key with
      | Some _ => portMap
      | None => <[key := PortInfo.mk key (Service.Name (Port.Service p)) 0]> portMap
      end in
    alter incr_Count key portMap
  else portMap.

Definition portMap_of (nmap : NmapRun.t) : gmap string PortInfo.t :=
  fold_left (fun portMap h => fold_left portMap_step (Host.Ports h) portMap)
            (NmapRun.Hosts nmap) ∅.

Definition more_frequent (a b : PortInfo.t) : bool :=
  PortInfo.Count a >? PortInfo.Count b.

(** [ports]: the values met by [range portMap], then sorted. *)
Definition port_mode (E : GoRuntime) (nmap : NmapRun.t) : list PortInfo.t :=
  sort_Slice E more_frequent (map snd (map_range E (portMap_of nmap))).

(** *** Mode 3: [-vendor] *)

(** [vendorMap[a.Vendor]++] for an address of type ["mac"]. *)
Definition vendorMap_step (vendorMap : gmap string Z) (a : Address.t) : gmap string Z :=
  if String.eqb (Address.AddrType a) "mac"
  then <[Address.Vendor a := index_int vendorMap (Address.Vendor a) + 1]> vendorMap
  else vendorMap.

Definition vendorMap_of (nmap : NmapRun.t) : gmap string Z :=
  fold_left (fun vendorMap h => fold_left vendorMap_step (Host.Addresses h) vendorMap)
            (NmapRun.Hosts nmap) ∅.

Definition more_devices (a b : VendorInfo.t) : bool :=
  VendorInfo.Count a >? VendorInfo.Count b.

(** [vendors]: one row per entry met by [range vendorMap], then sorted. *)
Definition vendor_mode (E : GoRuntime) (nmap : NmapRun.t) : list VendorInfo.t :=
  sort_Slice E more_devices
    (map (fun kv => VendorInfo.mk (fst kv) (snd kv)) (map_range E (vendorMap_of nmap))).

(** *** Output and dispatch *)

(** What the program hands to its writer: a record to [csv.Writer.Write], or
    a text to the [tabwriter].  Quoting and column alignment are the
    writers' work. *)
Inductive Written : Type :=
| CsvRecord (record : list string)
| TabText (text : string).

Definition tab_line (cells : list string) : Written :=
  TabText (Go.Join cells TAB ++ NL).

(** The [if *outputCSV] block has the same shape in the three modes: a
    header, in table format a line of dashes, and a row per element. *)
Definition emit (outputCSV : bool) (header dashes : list string)
    (rows : list (list string)) : list Written :=
  if outputCSV
  then CsvRecord header :: map CsvRecord rows
  else tab_line header :: tab_line dashes :: map tab_line rows.

Definition host_cells (r : HostInfo.t) : list string :=
  [HostInfo.Hostname r; HostInfo.IPv4 r; HostInfo.MAC r; HostInfo.Vendor r;
   Go.Itoa (HostInfo.CountOpen r); HostInfo.Ports r].

Definition port_cells (v : PortInfo.t) : list string :=
  [Go.Itoa (PortInfo.Count v); PortInfo.Key v; PortInfo.Service v].

Definition vendor_cells (v : VendorInfo.t) : list string :=
  [Go.Itoa (VendorInfo.Count v); VendorInfo.Name v].

Record Flags : Type := {
  xmlFile : string;
  wherePorts : string;
  showHostnames : bool;
  showPorts : bool;
  showVendors : bool;
  outputCSV : bool
}.

(** The result of [ioutil.ReadFile] followed by [xml.Unmarshal]. *)
Inductive Loaded : Type :=
| ReadError (err : string)
| ParseError (err : string)
| Parsed (nmap : NmapRun.t).

(** How the process ends: [log.Fatalf] with its message, or the return from
    [main] with what was written to standard output. *)
Inductive Exit : Type :=
| Fatal (message : string)
| Return (stdout : list Written).

(** The three [if *outputCSV] blocks. *)
Definition print_hosts (outputCSV : bool) (results : list HostInfo.t) : list Written :=
  emit outputCSV
       ["Hostname"; "IPv4"; "MAC"; "Vendor"; "CountOpenPort"; "Ports"]
       ["--------"; "----"; "---"; "------"; "-------------"; "-----"]
       (map host_cells results).

Definition print_ports (outputCSV : bool) (ports : list PortInfo.t) : list Written :=
  emit outputCSV
       ["Count"; "Port/Proto"; "ServiceName"]
       ["-----"; "----------"; "-----------"]
       (map port_cells ports).

Definition print_vendors (outputCSV : bool) (vendors : list VendorInfo.t) : list Written :=
  emit outputCSV
       ["Count"; "VendorName"]
       ["-----"; "----------"]
       (map vendor_cells vendors).

(** [main], from the decoding on.  Each mode block ends in [return], so the
    blocks after it are reached only when its flag is unset. *)
Definition main (E : GoRuntime) (flags : Flags) (input : Loaded) : Exit :=
  match input with
  | ReadError err => Fatal ("Erreur lecture fichier: " ++ err)
  | ParseError err =>
      Fatal ("Erreur parsing XML for " ++ xmlFile flags ++ ": " ++ err)
  | Parsed nmap =>
      if showHostnames flags then
        Return (print_hosts (outputCSV flags) (hostname_mode E (wherePorts flags) nmap))
      else if showPorts flags then
        Return (print_ports (outputCSV flags) (port_mode E nmap))
      else if showVendors flags then
        Return (print_vendors (outputCSV flags) (vendor_mode E nmap))
      else Return []
  end.

(** ** The views as the specification words them

    These definitions follow the specification, not the code; the theorems
    below compare the program with them. *)

(** Every port of the report, in input order, and the open ones. *)
Definition all_ports (nmap : NmapRun.t) : list Port.t :=
  concat (map Host.Ports (NmapRun.Hosts nmap)).

Definition open_ports (nmap : NmapRun.t) : list Port.t :=
  List.filter is_open (all_ports nmap).

Definition has_key (k : string) (p : Port.t) : bool := String.eqb (port_key p) k.

(** The keys or vendors of a list in the order of their first occurrence. *)
Definition first_seen (keys : list string) : list string :=
  fold_left (fun seen k => if existsb (String.eqb k) seen then seen else (seen ++ [k])%list)
            keys [].

(** The number of open-port occurrences of a key, and the service name of
    the first of them. *)
Definition occurrences (k : string) (ports : list Port.t) : Z :=
  Z.of_nat (length (List.filter (has_key k) ports)).

Definition first_service (k : string) (ports : list Port.t) : string :=
  match List.find (has_key k) ports with
  | Some p => Service.Name (Port.Service p)
  | None => ""
  end.

Definition port_row (ports : list Port.t) (k : string) : PortInfo.t :=
  PortInfo.mk k (first_service k ports) (occurrences k ports).

(** One PortRecord per distinct key, in first-seen order of the keys. *)
Definition port_table (nmap : NmapRun.t) : list PortInfo.t :=
  map (port_row (open_ports nmap)) (first_seen (map port_key (open_ports nmap))).

(** The number of hosts that have at least one open port with this id and
    protocol. *)
Definition host_has_open (id : Z) (protocol : string) (h : Host.t) : bool :=
  existsb (fun p => is_open p && Z.eqb (Port.PortID p) id && String.eqb (Port.Protocol p) protocol)
          (Host.Ports h).

Definition hosts_with_open (id : Z) (protocol : string) (nmap : NmapRun.t) : Z :=
  Z.of_nat (length (List.filter (host_has_open id protocol) (NmapRun.Hosts nmap))).

(** The report without its ports that are not open. *)
Definition only_open_host (h : Host.t) : Host.t :=
  Host.mk (Host.Addresses h) (Host.Hostnames h) (List.filter is_open (Host.Ports h)).

Definition only_open (nmap : NmapRun.t) : NmapRun.t :=
  NmapRun.mk (map only_open_host (NmapRun.Hosts nmap)).

(** The addresses tagged mac, in input order; a VendorRecord per distinct
    vendor string, in first-seen order. *)
Definition is_mac (a : Address.t) : bool := String.eqb (Address.AddrType a) "mac".
Definition is_ipv4 (a : Address.t) : bool := String.eqb (Address.AddrType a) "ipv4".

Definition mac_addresses (nmap : NmapRun.t) : list Address.t :=
  List.filter is_mac (concat (map Host.Addresses (NmapRun.Hosts nmap))).

Definition devices (vendor : string) (macs : list Address.t) : Z :=
  Z.of_nat (length (List.filter (fun a => String.eqb (Address.Vendor a) vendor) macs)).

Definition vendor_table (nmap : NmapRun.t) : list VendorInfo.t :=
  map (fun v => VendorInfo.mk v (devices v (mac_addresses nmap)))
      (first_seen (map Address.Vendor (mac_addresses nmap))).

(** The last address of a host that carries a tag. *)
Definition last_tagged (tagged : Address.t -> bool) (addrs : list Address.t)
  : option Address.t :=
  List.find tagged (rev addrs).

(** The filter of hostname mode: no filter when the [-whereport] string is
    empty, else the trimmed fields of the string. *)
Definition no_filter (wherePorts : string) : bool := (String.length wherePorts =? 0)%nat.

Definition requested (wherePorts : string) : list string :=
  map Go.TrimSpace (Go.Split wherePorts ","%char).

Definition matches (wherePorts : string) (p : Port.t) : bool :=
  no_filter wherePorts || existsb (String.eqb (Go.Itoa (Port.PortID p))) (requested wherePorts).

Definition listed (wherePorts : string) (p : Port.t) : bool :=
  is_open p && matches wherePorts p.

(** The HostRecord of a host, when the host is matched. *)
Definition host_row (wherePorts : string) (h : Host.t) : option HostInfo.t :=
  if existsb (listed wherePorts) (Host.Ports h) then
    Some (HostInfo.mk
            (hostname_of h)
            (from_option Address.Addr "" (last_tagged is_ipv4 (Host.Addresses h)))
            (from_option Address.Addr "" (last_tagged is_mac (Host.Addresses h)))
            (from_option Address.Vendor "" (last_tagged is_mac (Host.Addresses h)))
            (Z.of_nat (length (List.filter is_open (Host.Ports h))))
            (Go.Join (map (fun p => Go.Itoa (Port.PortID p))
                          (List.filter (listed wherePorts) (Host.Ports h))) ","))
  else None.

Definition host_table (wherePorts : string) (nmap : NmapRun.t) : list HostInfo.t :=
  omap (host_row wherePorts) (NmapRun.Hosts nmap).

(** Rows of equal count keep the relative order they have in [input]: for
    every count, the rows that have it come in the same order in [output]
    and in [input]. *)
Definition TiesKeep {A} (count : A -> Z) (input output : list A) : Prop :=
  forall c : Z,
    List.filter (fun a => Z.eqb (count a) c) output
    = List.filter (fun a => Z.eqb (count a) c) input.

(** Counts never increase along the rows. *)
Definition Ranked {A} (count : A -> Z) (rows : list A) : Prop :=
  forall (i j : nat) (a b : A),
    (i < j)%nat -> rows !! i = Some a -> rows !! j = Some b -> count b <= count a.

(** ** Auxiliary notions of the proofs *)

(** The comparison the three [sort.Slice] calls share: a larger count
    sorts first. *)
Definition by_count {A} (count : A -> Z) (a b : A) : bool := count a >? count b.

(** The entry of a key after the open ports [occ] have been counted. *)
Definition entry (occ : list Port.t) (k : string) : option PortInfo.t :=
  if existsb (has_key k) occ then Some (port_row occ k) else None.

Definition sold_by (vendor : string) (a : Address.t) : bool :=
  String.eqb (Address.Vendor a) vendor.

(** The value of a vendor after the mac addresses [macs] have been counted. *)
Definition vendor_entry (macs : list Address.t) (vendor : string) : option Z :=
  if existsb (sold_by vendor) macs then Some (devices vendor macs) else None.

Fixpoint has_slash (s : string) : bool :=
  match s with
  | EmptyString => false
  | String c s' => Ascii.eqb c "/" || has_slash s'
  end.

(** ** Sample reports *)

Definition a_port (id : Z) (protocol state service : string) : Port.t :=
  Port.mk protocol id (State.mk state) (Service.mk service).

(** The two hosts of the specification's example. *)
Definition host_A : Host.t :=
  Host.mk [Address.mk "10.0.0.1" "ipv4" ""] []
          [a_port 22 "tcp" "open" "ssh"; a_port 80 "tcp" "open" "http";
           a_port 81 "tcp" "closed" ""].

Definition host_B : Host.t :=
  Host.mk [Address.mk "10.0.0.2" "ipv4" ""] [] [a_port 22 "tcp" "open" "ssh"].

Definition report_AB : NmapRun.t := NmapRun.mk [host_A; host_B].

(** A host with two names, two ipv4 addresses and two mac addresses. *)
Definition host_many : Host.t :=
  Host.mk [Address.mk "10.0.0.7" "ipv4" ""; Address.mk "AA:AA" "mac" "Intel";
           Address.mk "fe80::1" "ipv6" ""; Address.mk "10.0.0.8" "ipv4" "";
           Address.mk "BB:BB" "mac" "Cisco"]
          [Hostname.mk "first.local"; Hostname.mk "second.local"]
          [a_port 443 "tcp" "open" "https"].

(** A host with port 22 open on tcp and on udp. *)
Definition host_22_twice (addrs : list Address.t) (names : list Hostname.t) : Host.t :=
  Host.mk addrs names [a_port 22 "tcp" "open" "ssh"; a_port 22 "udp" "open" ""].

(** Port 80/tcp open twice on a first host, under two service names, and
    once on a second host, under a third. *)
Definition report_80_thrice : NmapRun.t :=
  NmapRun.mk [Host.mk [] [] [a_port 80 "tcp" "open" "http"; a_port 80 "tcp" "closed" "none";
                             a_port 80 "tcp" "open" "http-alt"];
              Host.mk [] [] [a_port 80 "tcp" "open" "www"]].

(** Two hosts, each with a mac address without vendor. *)
Definition report_no_vendor : NmapRun.t :=
  NmapRun.mk [Host.mk [Address.mk "10.0.0.1" "ipv4" ""; Address.mk "AA:AA" "mac" ""] [] [];
              Host.mk [Address.mk "BB:BB" "mac" ""] [] []].

(** One host with two open ports, and two hosts of different vendors. *)
Definition report_two_ports : NmapRun.t :=
  NmapRun.mk [Host.mk [] [] [a_port 22 "tcp" "open" "ssh"; a_port 80 "tcp" "open" "http"]].

Definition report_two_vendors : NmapRun.t :=
  NmapRun.mk [Host.mk [Address.mk "AA:AA" "mac" "Intel"] [] [];
              Host.mk [Address.mk "BB:BB" "mac" "Cisco"] [] []].

(** Thirteen named hosts, in the order h0 to h12: those of even rank have
    two open ports, those of odd rank one. *)
Definition host_named (name : string) (ports : list Port.t) : Host.t :=
  Host.mk [] [Hostname.mk name] ports.

Definition two_open : list Port.t :=
  [a_port 22 "tcp" "open" "ssh"; a_port 80 "tcp" "open" "http"].

Definition one_open : list Port.t := [a_port 22 "tcp" "open" "ssh"].

Definition report_13 : NmapRun.t :=
  NmapRun.mk [host_named "h0" two_open;
              host_named "h1" one_open;
              host_named "h2" two_open;
              host_named "h3" one_open;
              host_named "h4" two_open;
              host_named "h5" one_open;
              host_named "h6" two_open;
              host_named "h7" one_open;
              host_named "h8" two_open;
              host_named "h9" one_open;
              host_named "h10" two_open;
              host_named "h11" one_open;
              host_named "h12" two_open].

(** One host that lists port 80/tcp twice, open both times. *)
Definition report_80_twice : NmapRun.t :=
  NmapRun.mk [Host.mk [Address.mk "10.0.0.1" "ipv4" ""] []
                      [a_port 80 "tcp" "open" "http"; a_port 80 "tcp" "open" "http"]].

(** ** Insertion sort meets the contract of [sort.Slice] *)

Section InsertionSort.
Context {A : Type} (less : A -> A -> bool).

Lemma sink_perm (x : A) (rprefix : list A) : sink less x rprefix ≡ₚ x :: rprefix.
Proof.
  induction rprefix as [|y rest IH]; simpl; [done|].
  destruct (less x y); [|done].
  rewrite IH. apply perm_swap.
Qed.

Lemma insertion_loop_perm (x acc : list A) :
  fold_left (fun rprefix a => sink less a rprefix) x acc ≡ₚ (x ++ acc)%list.
Proof.
  revert acc. induction x as [|a x IH]; intros acc; simpl; [done|].
  rewrite IH, sink_perm. by rewrite Permutation_middle.
Qed.

Lemma insertionSort_perm (x : list A) : insertionSort less x ≡ₚ x.
Proof.
  unfold insertionSort. rewrite <- Permutation_rev, insertion_loop_perm.
  by rewrite app_nil_r.
Qed.

Hypothesis less_ok : StrictWeak less.

Lemma less_asym (a b : A) : less a b = true -> less b a = false.
Proof.
  intros Hab. destruct (less b a) eqn:Hba; [|done].
  pose proof (less_trans less less_ok _ _ _ Hab Hba) as Haa.
  by rewrite (less_irrefl less less_ok) in Haa.
Qed.

(** The prefix in reverse: no element sorts before its successor. *)
Lemma sink_sorted (x : A) (rprefix : list A) :
  Sorted (fun a b => less a b = false) rprefix ->
  Sorted (fun a b => less a b = false) (sink less x rprefix).
Proof.
  induction rprefix as [|y rest IH]; intros Hs; simpl.
  - repeat constructor.
  - destruct (less x y) eqn:Hxy.
    + inversion Hs as [|? ? Hrest Hhd]; subst.
      constructor; [by apply IH|].
      destruct rest as [|z rest']; simpl.
      * constructor. by apply less_asym.
      * destruct (less x z); constructor.
        -- by inversion Hhd.
        -- by apply less_asym.
    + constructor; [done|]. by constructor.
Qed.

Lemma insertion_loop_sorted (x acc : list A) :
  Sorted (fun a b => less a b = false) acc ->
  Sorted (fun a b => less a b = false)
         (fold_left (fun rprefix a => sink less a rprefix) x acc).
Proof.
  revert acc. induction x as [|a x IH]; intros acc Hacc; simpl; [done|].
  apply IH. by apply sink_sorted.
Qed.

End InsertionSort.

Lemma Sorted_snoc {A} (R : A -> A -> Prop) (l : list A) (x : A) :
  Sorted R l -> (forall y, last l = Some y -> R y x) -> Sorted R (l ++ [x]).
Proof.
  induction l as [|a l IH]; intros Hs Hlast; simpl.
  - repeat constructor.
  - inversion Hs as [|? ? Hl Hhd]; subst. constructor.
    + apply IH; [done|]. intros y Hy. apply Hlast.
      destruct l; [done|]. exact Hy.
    + destruct l as [|b l]; simpl.
      * constructor. by apply Hlast.
      * constructor. by inversion Hhd.
Qed.

Lemma Sorted_rev {A} (R : A -> A -> Prop) (l : list A) :
  Sorted R l -> Sorted (fun a b => R b a) (rev l).
Proof.
  induction l as [|a l IH]; intros Hs; simpl; [constructor|].
  inversion Hs as [|? ? Hl Hhd]; subst.
  apply Sorted_snoc; [by apply IH|].
  intros y Hy. destruct l as [|b l]; [done|].
  simpl in Hy. rewrite last_snoc in Hy. inversion Hy; subst. by inversion Hhd.
Qed.

Lemma insertionSort_sorted {A} (less : A -> A -> bool) (x : list A) :
  StrictWeak less -> Sorted (fun a b => less b a = false) (insertionSort less x).
Proof.
  intros Hless. unfold insertionSort.
  apply (Sorted_rev (fun a b => less a b = false)).
  apply insertion_loop_sorted; [done|constructor].
Qed.

Lemma map_to_list_rev_perm {V} (m : gmap string V) : rev (map_to_list m) ≡ₚ map_to_list m.
Proof. symmetry. apply Permutation_rev. Qed.

(** ** [sort_Slice_Go] meets the contract of [sort.Slice] *)

Lemma insert_take_drop_perm {A} (l : list A) (j : nat) (x y : A) :
  l !! j = Some y -> y :: <[j := x]> l ≡ₚ x :: l.
Proof.
  revert j. induction l as [|a l IH]; intros [|j] Hj; simpl in *; try done.
  - inversion Hj; subst. apply perm_swap.
  - rewrite (perm_swap a y), (IH j Hj). apply perm_swap.
Qed.

Lemma swap_elems_perm {A} (i j : nat) (data : list A) : swap_elems i j data ≡ₚ data.
Proof.
  unfold swap_elems.
  destruct (data !! i) as [x|] eqn:Hi; [|done].
  destruct (data !! j) as [y|] eqn:Hj; [|done].
  apply (Permutation_cons_inv (a := x)).
  destruct (decide (i = j)) as [->|Hne].
  - rewrite list_insert_insert_eq. rewrite Hi in Hj. inversion Hj; subst.
    by rewrite list_insert_id.
  - rewrite (insert_take_drop_perm _ i y x).
    + by apply insert_take_drop_perm.
    + by rewrite list_lookup_insert_ne.
Qed.

Section Partition.
Context {A : Type} (less : A -> A -> bool).

Lemma span_spec (test : A -> bool) (l pre rest : list A) :
  span test l = (pre, rest) ->
  l = (pre ++ rest)%list /\ Forall (fun x => test x = true) pre
  /\ (forall x rest', rest = x :: rest' -> test x = false).
Proof.
  revert pre rest. induction l as [|a l IH]; intros pre rest Hspan; simpl in Hspan.
  - inversion Hspan; subst. by repeat split.
  - destruct (test a) eqn:Ha.
    + destruct (span test l) as [pre' rest'] eqn:Hl. inversion Hspan; subst.
      destruct (IH _ _ eq_refl) as (-> & Hpre & Hrest).
      repeat split; [by constructor|done].
    + inversion Hspan; subst. repeat split; [constructor|].
      intros x rest' [= <- <-]. done.
Qed.

Lemma hoare_spec (p : A) (fuel : nat) (range lows highs : list A) :
  (length range <= fuel)%nat ->
  hoare less p fuel range = (lows, highs) ->
  range ≡ₚ (lows ++ highs)%list
  /\ Forall (fun x => less x p = true) lows
  /\ Forall (fun x => less x p = false) highs.
Proof.
  revert range lows highs. induction fuel as [|fuel IH];
    intros range lows highs Hlen Hhoare; simpl in Hhoare.
  - destruct range; [|simpl in Hlen; lia]. simpl in Hhoare.
    inversion Hhoare; subst. by repeat split.
  - destruct (span (fun x => less x p) range) as [front rest] eqn:Hfront.
    destruct (span (fun y => negb (less y p)) (rev rest)) as [rback rrest] eqn:Hback.
    apply span_spec in Hfront as (-> & Hfront & Hstop).
    apply span_spec in Hback as (Hrev & Hrback & Hstop').
    assert (rest = (rev rrest ++ rev rback)%list) as ->.
    { by rewrite <- rev_app_distr, <- Hrev, rev_involutive. }
    assert (Forall (fun x => less x p = false) (rev rback)) as Hhighs.
    { apply Forall_rev. eapply Forall_impl; [exact Hrback|].
      intros x Hx. by apply negb_true_iff in Hx. }
    destruct rrest as [|y rmid].
    + inversion Hhoare; subst. by repeat split.
    + assert (less y p = true) as Hy.
      { specialize (Hstop' y rmid eq_refl). by apply negb_false_iff in Hstop'. }
      simpl in Hstop. destruct (rev rmid) as [|x mid] eqn:Hmid.
      * simpl in Hstop. specialize (Hstop y _ eq_refl). congruence.
      * simpl in Hstop. specialize (Hstop x _ eq_refl).
        destruct (hoare less p fuel mid) as [lows' highs'] eqn:Hrec.
        inversion Hhoare; subst. clear Hhoare.
        apply IH in Hrec as (Hperm & Hlows & Hhighs').
        2: { rewrite !length_app, (length_rev (y :: rmid)) in Hlen. simpl in Hlen.
             rewrite <- (length_rev rmid), Hmid in Hlen. simpl in Hlen. lia. }
        split; [|split].
        -- simpl. rewrite Hmid. simpl. rewrite Hperm. rewrite <- !app_assoc. simpl.
           apply Permutation_app_head. rewrite !(app_assoc lows' highs').
           rewrite <- !Permutation_middle. apply perm_swap.
        -- apply Forall_app. split; [done|]. by constructor.
        -- apply Forall_app. split; [done|]. by constructor.
Qed.

End Partition.

Lemma swap_pivot_last {A} (p : A) (lows highs : list A) :
  exists L, swap_elems (length lows) 0 (p :: lows ++ highs) = (L ++ p :: highs)%list
            /\ L ≡ₚ lows.
Proof.
  destruct lows as [|z l1 _] using rev_ind.
  - exists []. by split.
  - exists (z :: l1). split; [|by rewrite Permutation_app_comm].
    unfold swap_elems. rewrite length_app, Nat.add_1_r. cbn [lookup list_lookup].
    rewrite <- app_assoc. rewrite (lookup_app_r l1) by lia.
    rewrite Nat.sub_diag. cbn.
    f_equal. pose proof (insert_app_r l1 (z :: highs) 0 p) as Hins.
    rewrite Nat.add_0_r in Hins. exact Hins.
Qed.

Section SortGo.
Context {A : Type} (less : A -> A -> bool).

Lemma partitionLess_spec (data : list A) (pivot : nat) :
  let '(mid, data') := partitionLess less data pivot in
  data' ≡ₚ data
  /\ (data = [] /\ data' = []
      \/ exists L p highs,
           data' = (L ++ p :: highs)%list /\ length L = mid
           /\ Forall (fun x => less x p = true) L
           /\ Forall (fun x => less x p = false) highs).
Proof.
  unfold partitionLess. pose proof (swap_elems_perm 0 pivot data) as Hswap.
  destruct (swap_elems 0 pivot data) as [|p range].
  - apply Permutation_nil_l in Hswap. subst. split; [done|]. by left.
  - destruct (hoare less p (length range) range) as [lows highs] eqn:Hhoare.
    apply hoare_spec in Hhoare as (Hperm & Hlows & Hhighs); [|done].
    destruct (swap_pivot_last p lows highs) as (L & HL & HLperm).
    split.
    + rewrite swap_elems_perm, <- Hswap. by rewrite Hperm.
    + right. exists L, p, highs. rewrite HL. split; [done|].
      split; [by rewrite HLperm|]. split; [by rewrite HLperm|done].
Qed.

Lemma Sorted_app_pivot (R : A -> A -> Prop) (l1 l2 : list A) (p : A) :
  Sorted R l1 -> Sorted R l2 ->
  Forall (fun a => R a p) l1 -> Forall (fun b => R p b) l2 ->
  Sorted R (l1 ++ p :: l2).
Proof.
  intros Hl1 Hl2 H1 H2. induction Hl1 as [|a l1 Hl1 IH Hhd]; simpl.
  - constructor; [done|]. destruct H2; by constructor.
  - apply Forall_cons in H1 as [Ha H1]. constructor; [by apply IH|].
    destruct Hhd; simpl; by constructor.
Qed.

Lemma pdqsort_once_perm (data : list A) : pdqsort_once less data ≡ₚ data.
Proof.
  unfold pdqsort_once. destruct (choosePivot less data) as [pivot swaps].
  destruct ((swaps =? 0)%nat && in_order less data); [done|].
  pose proof (partitionLess_spec data pivot) as Hspec.
  destruct (partitionLess less data pivot) as [mid data'].
  destruct Hspec as [Hperm _]. rewrite !insertionSort_perm, <- Hperm.
  assert (drop (S mid) data' = drop 1 (drop mid data')) as ->.
  { by rewrite drop_drop, Nat.add_1_r. }
  by rewrite (take_drop 1), take_drop.
Qed.

Lemma in_order_Sorted (data : list A) :
  in_order less data = true -> Sorted (fun a b => less b a = false) data.
Proof.
  induction data as [|x data IH]; [constructor|].
  destruct data as [|y data]; [repeat constructor|].
  cbn [in_order]. intros [Hxy Hrest]%andb_prop. apply negb_true_iff in Hxy.
  constructor; [by apply IH|]. by constructor.
Qed.

Lemma pdqsort_once_sorted (data : list A) :
  StrictWeak less -> Sorted (fun a b => less b a = false) (pdqsort_once less data).
Proof.
  intros Hless. unfold pdqsort_once. destruct (choosePivot less data) as [pivot swaps].
  destruct ((swaps =? 0)%nat && in_order less data) eqn:Hfast.
  { apply andb_prop in Hfast as [_ Hord]. by apply in_order_Sorted. }
  pose proof (partitionLess_spec data pivot) as Hspec.
  destruct (partitionLess less data pivot) as [mid data'].
  destruct Hspec as [_ [[_ ->]|(L & p & highs & -> & <- & HL & Hhighs)]].
  { rewrite take_nil, !drop_nil, take_nil. simpl. constructor. }
  rewrite take_app_length, drop_app_length.
  replace (drop (S (length L)) (L ++ p :: highs)) with highs.
  2: { rewrite drop_app_ge by lia.
       by replace (S (length L) - length L)%nat with 1%nat by lia. }
  cbn [take drop app]. apply Sorted_app_pivot; try by apply insertionSort_sorted.
  - rewrite insertionSort_perm. eapply Forall_impl; [exact HL|].
    intros x Hx. by apply less_asym.
  - by rewrite insertionSort_perm.
Qed.

End SortGo.

Lemma sort_Slice_Go_perm {A} (less : A -> A -> bool) (data : list A) :
  sort_Slice_Go less data ≡ₚ data.
Proof.
  unfold sort_Slice_Go. destruct (length data <=? 12)%nat.
  - apply insertionSort_perm.
  - apply pdqsort_once_perm.
Qed.

Lemma sort_Slice_Go_sorted {A} (less : A -> A -> bool) (data : list A) :
  StrictWeak less -> Sorted (fun a b => less b a = false) (sort_Slice_Go less data).
Proof.
  intros Hless. unfold sort_Slice_Go. destruct (length data <=? 12)%nat.
  - by apply insertionSort_sorted.
  - by apply pdqsort_once_sorted.
Qed.

(** Two runtimes.  Both sort as the Go library does; [range] visits a map
    in the order of [map_to_list], or in the opposite order: on a map of two
    keys, these are the two orders there are. *)
Definition runtime (backwards : bool) : GoRuntime :=
  {| map_range V m := if backwards then rev (map_to_list m) else map_to_list m;
     map_range_perm V m :=
       match backwards as b
         return (if b then rev (map_to_list m) else map_to_list m) ≡ₚ map_to_list m
       with
       | true => map_to_list_rev_perm m
       | false => reflexivity (map_to_list m)
       end;
     sort_Slice A := sort_Slice_Go;
     sort_Slice_perm A := sort_Slice_Go_perm;
     sort_Slice_sorted A := sort_Slice_Go_sorted |}.

Lemma runtime_SortsAsGo (backwards : bool) : SortsAsGo (runtime backwards).
Proof. by intros A less x _. Qed.

(** ** Sorting by a count, on any runtime *)

Section Ranking.
Context {A : Type} (count : A -> Z).

Lemma by_count_strict_weak : StrictWeak (by_count count).
Proof.
  unfold by_count. split.
  - intros a. rewrite Z.gtb_ltb. apply Z.ltb_irrefl.
  - intros a b c. rewrite !Z.gtb_ltb, !Z.ltb_lt. lia.
  - intros a b c. rewrite !Z.gtb_ltb, !Z.ltb_ge. lia.
Qed.

Lemma StronglySorted_Ranked (rows : list A) :
  StronglySorted (fun a b => count b <= count a) rows -> Ranked count rows.
Proof.
  induction 1 as [|x rows Hrows IH Hx]; intros i j a b Hij Hi Hj.
  - by rewrite lookup_nil in Hi.
  - destruct j as [|j]; [lia|]. simpl in Hj.
    destruct i as [|i]; simpl in Hi.
    + inversion Hi; subst. rewrite Forall_forall in Hx.
      apply Hx. by eapply list_elem_of_lookup_2.
    + apply (IH i j); [lia|done..].
Qed.

Lemma sort_Slice_Ranked (E : GoRuntime) (rows : list A) :
  Ranked count (sort_Slice E (by_count count) rows).
Proof.
  apply StronglySorted_Ranked, Sorted_StronglySorted.
  - intros a b c. lia.
  - eapply Sorted_ind with (P := fun l => Sorted (fun a b => count b <= count a) l);
      [constructor| |apply (sort_Slice_sorted E), by_count_strict_weak].
    intros a l _ Hl Hhd. constructor; [done|].
    destruct Hhd as [|b l' Hb]; constructor.
    unfold by_count in Hb. rewrite Z.gtb_ltb, Z.ltb_ge in Hb. exact Hb.
Qed.

(** A slice of one element has one order. *)
Lemma sort_Slice_singleton (E : GoRuntime) (less : A -> A -> bool) (a : A) :
  sort_Slice E less [a] = [a].
Proof. apply Permutation_singleton_r, (sort_Slice_perm E). Qed.

(** Two rows of different counts have one ranked order. *)
Lemma Ranked_pair (rows : list A) (a b : A) :
  rows ≡ₚ [a; b] -> Ranked count rows -> count b < count a -> rows = [a; b].
Proof.
  intros Hperm Hranked Hlt. symmetry in Hperm.
  apply Permutation_length_2_inv in Hperm as [->| ->]; [done|].
  specialize (Hranked 0%nat 1%nat b a). cbn in Hranked.
  assert (count a <= count b) by (apply Hranked; [lia|done..]). lia.
Qed.

End Ranking.

(** The same rows sorted on two runtimes: the two results have the same
    column of counts. *)
Lemma ranked_counts_unique {A} (count : A -> Z) (E1 E2 : GoRuntime) (rows1 rows2 : list A) :
  rows1 ≡ₚ rows2 ->
  map count (sort_Slice E1 (by_count count) rows1)
  = map count (sort_Slice E2 (by_count count) rows2).
Proof.
  intros Hperm.
  assert (forall (E : GoRuntime) rows,
             Sorted (fun x y : Z => y <= x) (map count (sort_Slice E (by_count count) rows)))
    as Hsorted.
  { intros E rows.
    pose proof (sort_Slice_sorted E _ (by_count count) rows (by_count_strict_weak count))
      as Hs.
    induction Hs as [|a l _ IH Hhd]; [constructor|].
    cbn [map]. constructor; [exact IH|].
    destruct Hhd as [|b l' Hb]; constructor.
    unfold by_count in Hb. rewrite Z.gtb_ltb, Z.ltb_ge in Hb. exact Hb. }
  assert (Transitive (fun x y : Z => y <= x)) as Htrans by (intros x y z; lia).
  apply (sorting.Sorted_unique_strong (fun x y : Z => y <= x)).
  - intros x y _ _. lia.
  - apply Hsorted.
  - apply Hsorted.
  - apply Permutation_map. by rewrite !sort_Slice_perm.
Qed.

(** ** Hostname mode *)

(** Reading the filled set: a key is present exactly when it is the trimmed
    form of one of the fields. *)
Lemma portSet_loop_index (fields : list string) (set : gmap string bool) (k : string) :
  index_bool (fold_left (fun set p => <[Go.TrimSpace p := true]> set) fields set) k
  = existsb (String.eqb k) (map Go.TrimSpace fields) || index_bool set k.
Proof.
  revert set. induction fields as [|p fields IH]; intros set; simpl; [done|].
  rewrite IH. unfold index_bool.
  destruct (String.eqb_spec k (Go.TrimSpace p)) as [->|Hne].
  - rewrite lookup_insert_eq. simpl. by rewrite orb_true_r.
  - by rewrite lookup_insert_ne by congruence.
Qed.

Lemma portSet_index (wherePorts k : string) :
  index_bool (portSet wherePorts) k = existsb (String.eqb k) (requested wherePorts).
Proof.
  unfold portSet, requested. rewrite portSet_loop_index.
  unfold index_bool. rewrite lookup_empty. simpl. apply orb_false_r.
Qed.

Lemma port_step_matches (wherePorts : string) (p : Port.t) :
  no_filter wherePorts || index_bool (portSet wherePorts) (Go.Itoa (Port.PortID p))
  = matches wherePorts p.
Proof. unfold matches. by rewrite portSet_index. Qed.

(** The loop over the ports, from any values of its three variables. *)
Lemma scan_ports_loop (wherePorts : string) (ports : list Port.t)
    (countOpen : Z) (matched : bool) (openPort : list string) :
  fold_left (port_step (no_filter wherePorts) (portSet wherePorts)) ports
            (countOpen, matched, openPort)
  = (countOpen + Z.of_nat (length (List.filter is_open ports)),
     matched || existsb (listed wherePorts) ports,
     (openPort ++ map (fun p => Go.Itoa (Port.PortID p))
                      (List.filter (listed wherePorts) ports))%list).
Proof.
  revert countOpen matched openPort.
  induction ports as [|p ports IH]; intros countOpen matched openPort.
  - simpl. by rewrite Z.add_0_r, orb_false_r, app_nil_r.
  - cbn [fold_left List.filter existsb]. unfold port_step at 2, listed at 1 3.
    rewrite port_step_matches.
    destruct (is_open p), (matches wherePorts p); cbn [andb orb];
      rewrite IH; cbn [length map orb];
      rewrite ?orb_true_r, <- ?app_assoc; cbn [app]; [| |done..];
      f_equal; f_equal; lia.
Qed.

Lemma scan_ports_spec (wherePorts : string) (ports : list Port.t) :
  scan_ports (no_filter wherePorts) (portSet wherePorts) ports
  = (Z.of_nat (length (List.filter is_open ports)),
     existsb (listed wherePorts) ports,
     map (fun p => Go.Itoa (Port.PortID p)) (List.filter (listed wherePorts) ports)).
Proof. unfold scan_ports. by rewrite scan_ports_loop. Qed.

Lemma last_tagged_cons (tagged : Address.t -> bool) (a : Address.t) (addrs : list Address.t) :
  last_tagged tagged (a :: addrs)
  = match last_tagged tagged addrs with
    | Some x => Some x
    | None => if tagged a then Some a else None
    end.
Proof.
  unfold last_tagged. simpl. generalize (rev addrs) as l.
  induction l as [|y l IH]; simpl; [done|].
  by destruct (tagged y).
Qed.

(** The loop over the addresses, from any values of its three variables. *)
Lemma scan_addresses_loop (addrs : list Address.t) (ipv4 mac vendor : string) :
  fold_left address_step addrs (ipv4, mac, vendor)
  = (from_option Address.Addr ipv4 (last_tagged is_ipv4 addrs),
     from_option Address.Addr mac (last_tagged is_mac addrs),
     from_option Address.Vendor vendor (last_tagged is_mac addrs)).
Proof.
  revert ipv4 mac vendor.
  induction addrs as [|a addrs IH]; intros ipv4 mac vendor; [done|].
  cbn [fold_left]. rewrite !last_tagged_cons.
  unfold address_step at 2. fold (is_ipv4 a). fold (is_mac a).
  destruct (is_mac a), (is_ipv4 a); rewrite IH;
    by destruct (last_tagged is_ipv4 addrs), (last_tagged is_mac addrs).
Qed.

Lemma host_step_spec (wherePorts : string) (results : list HostInfo.t) (h : Host.t) :
  host_step (no_filter wherePorts) (portSet wherePorts) results h
  = (results ++ option_list (host_row wherePorts h))%list.
Proof.
  unfold host_step, host_row, scan_addresses.
  rewrite scan_addresses_loop, scan_ports_spec.
  destruct (existsb (listed wherePorts) (Host.Ports h)); simpl; [done|].
  by rewrite app_nil_r.
Qed.

Lemma host_results_loop (wherePorts : string) (hosts : list Host.t) (results : list HostInfo.t) :
  fold_left (host_step (no_filter wherePorts) (portSet wherePorts)) hosts results
  = (results ++ omap (host_row wherePorts) hosts)%list.
Proof.
  revert results. induction hosts as [|h hosts IH]; intros results; simpl.
  - by rewrite app_nil_r.
  - rewrite IH, host_step_spec. rewrite <- app_assoc. f_equal.
    by destruct (host_row wherePorts h).
Qed.

(** Before the sort, [results] is the table of the matched hosts in input
    order. *)
Lemma host_results_spec (wherePorts : string) (nmap : NmapRun.t) :
  host_results wherePorts nmap = host_table wherePorts nmap.
Proof. unfold host_results, host_table. by rewrite (host_results_loop wherePorts). Qed.

(** ** Lists: first occurrences, nested loops *)

Section ListFacts.
Context {A : Type} (f : A -> bool).

Lemma find_app (l l' : list A) :
  List.find f (l ++ l') = match List.find f l with Some x => Some x | None => List.find f l' end.
Proof. induction l as [|a l IH]; simpl; [done|]. by destruct (f a). Qed.

Lemma existsb_find (l : list A) :
  existsb f l = match List.find f l with Some _ => true | None => false end.
Proof. induction l as [|a l IH]; simpl; [done|]. by destruct (f a). Qed.

Lemma existsb_false_filter (l : list A) : existsb f l = false -> List.filter f l = [].
Proof.
  induction l as [|a l IH]; simpl; [done|].
  destruct (f a); simpl; [done|]. exact IH.
Qed.

Lemma existsb_elem (l : list A) : existsb f l = true <-> exists a, a ∈ l /\ f a = true.
Proof.
  rewrite existsb_exists. split; intros (a & Ha & Hf); exists a; split; try done;
    by apply list_elem_of_In.
Qed.

Lemma filter_filter_same (l : list A) : List.filter f (List.filter f l) = List.filter f l.
Proof.
  induction l as [|a l IH]; simpl; [done|].
  destruct (f a) eqn:Ha; simpl; [|done]. by rewrite Ha, IH.
Qed.

End ListFacts.

(** A loop nested in a loop is one loop over the concatenation. *)
Lemma fold_left_nested {S X Y} (step : S -> Y -> S) (inner : X -> list Y)
    (outer : list X) (s : S) :
  fold_left (fun s x => fold_left step (inner x) s) outer s
  = fold_left step (concat (map inner outer)) s.
Proof.
  revert s. induction outer as [|x outer IH]; intros s; simpl; [done|].
  by rewrite fold_left_app, IH.
Qed.

(** A loop whose body does nothing outside [keep] is the loop over the
    elements of [keep]. *)
Lemma fold_left_filter {S Y} (step : S -> Y -> S) (keep : Y -> bool) (l : list Y) (s : S) :
  (forall s y, keep y = false -> step s y = s) ->
  fold_left step l s = fold_left step (List.filter keep l) s.
Proof.
  intros Hskip. revert s. induction l as [|y l IH]; intros s; simpl; [done|].
  destruct (keep y) eqn:Hy; simpl; [done|]. by rewrite Hskip.
Qed.

Lemma existsb_eqb_elem (k : string) (l : list string) :
  existsb (String.eqb k) l = true <-> k ∈ l.
Proof.
  rewrite existsb_elem. split.
  - intros (a & Ha & Heq). apply String.eqb_eq in Heq. by subst.
  - intros Hk. exists k. by rewrite String.eqb_refl.
Qed.

Lemma first_seen_loop (keys seen : list string) :
  NoDup seen ->
  let out := fold_left (fun seen k => if existsb (String.eqb k) seen then seen
                                      else (seen ++ [k])%list) keys seen in
  NoDup out /\ forall k, k ∈ out <-> k ∈ seen \/ k ∈ keys.
Proof.
  revert seen. induction keys as [|k0 keys IH]; intros seen Hseen; simpl.
  - split; [done|]. intros k. rewrite elem_of_nil. tauto.
  - destruct (existsb (String.eqb k0) seen) eqn:Hk0.
    + destruct (IH seen Hseen) as [Hnd Hin]. split; [done|].
      intros k. rewrite Hin, elem_of_cons.
      apply existsb_eqb_elem in Hk0. split; [tauto|].
      intros [?|[->|?]]; tauto.
    + assert (k0 ∉ seen) as Hnot.
      { intros Hin. apply existsb_eqb_elem in Hin. congruence. }
      destruct (IH (seen ++ [k0])%list) as [Hnd Hin].
      { apply NoDup_app. split; [done|]. split; [|apply NoDup_singleton].
        intros x Hx Hx0. apply list_elem_of_singleton in Hx0. by subst. }
      split; [done|]. intros k.
      rewrite Hin, elem_of_app, list_elem_of_singleton, elem_of_cons. tauto.
Qed.

Lemma first_seen_NoDup (keys : list string) : NoDup (first_seen keys).
Proof. apply (first_seen_loop keys []), NoDup_nil_2. Qed.

Lemma first_seen_elem (keys : list string) (k : string) : k ∈ first_seen keys <-> k ∈ keys.
Proof.
  destruct (first_seen_loop keys [] (NoDup_nil_2 (A:=string))) as [_ Hin].
  unfold first_seen. rewrite Hin, elem_of_nil. tauto.
Qed.

(** ** Port mode *)

Lemma occurrences_snoc (k : string) (occ : list Port.t) (p : Port.t) :
  occurrences k (occ ++ [p]) = occurrences k occ + (if has_key k p then 1 else 0).
Proof.
  unfold occurrences. rewrite List.filter_app, length_app, Nat2Z.inj_add. simpl.
  by destruct (has_key k p).
Qed.

Lemma first_service_snoc (k : string) (occ : list Port.t) (p : Port.t) :
  first_service k (occ ++ [p])
  = if existsb (has_key k) occ then first_service k occ
    else if has_key k p then Service.Name (Port.Service p) else "".
Proof.
  unfold first_service. rewrite find_app, existsb_find.
  destruct (List.find (has_key k) occ); [done|]. simpl. by destruct (has_key k p).
Qed.

(** One turn of the inner loop on an open port. *)
Lemma portMap_step_entry (portMap : gmap string PortInfo.t) (occ : list Port.t)
    (p : Port.t) (k : string) :
  is_open p = true ->
  (forall k', portMap !! k' = entry occ k') ->
  portMap_step portMap p !! k = entry (occ ++ [p]) k.
Proof.
  intros Hopen Hinv. unfold portMap_step. rewrite Hopen.
  unfold entry at 1. rewrite existsb_app. cbn [existsb]. rewrite orb_false_r.
  unfold port_row. rewrite occurrences_snoc, first_service_snoc.
  unfold has_key at 2 4 5. destruct (String.eqb_spec (port_key p) k) as [Hk|Hk].
  - subst k. rewrite orb_true_r, lookup_alter_eq, (Hinv (port_key p)).
    unfold entry. destruct (existsb (has_key (port_key p)) occ) eqn:Hseen.
    + rewrite (Hinv (port_key p)). unfold entry. rewrite Hseen. done.
    + rewrite lookup_insert_eq. cbn. unfold incr_Count. cbn.
      unfold occurrences. by rewrite (existsb_false_filter _ _ Hseen).
  - rewrite orb_false_r, Z.add_0_r, lookup_alter_ne by done.
    destruct (portMap !! port_key p).
    + rewrite Hinv. unfold entry, port_row.
      by destruct (existsb (has_key k) occ).
    + rewrite lookup_insert_ne by done. rewrite Hinv. unfold entry, port_row.
      by destruct (existsb (has_key k) occ).
Qed.

Lemma portMap_loop_entry (occ : list Port.t) (k : string) :
  Forall (fun p => is_open p = true) occ ->
  fold_left portMap_step occ ∅ !! k = entry occ k.
Proof.
  revert k. induction occ as [|p occ IH] using rev_ind; intros k Hopen.
  - apply lookup_empty.
  - apply Forall_app in Hopen as [Hocc Hp]. rewrite fold_left_app. cbn [fold_left].
    apply portMap_step_entry.
    + by inversion Hp.
    + intros k'. by apply IH.
Qed.

Lemma portMap_step_skip (portMap : gmap string PortInfo.t) (p : Port.t) :
  is_open p = false -> portMap_step portMap p = portMap.
Proof. intros Hp. unfold portMap_step. by rewrite Hp. Qed.

(** [portMap] after the two loops: every key of an open port has the row
    the specification describes, and there is no other key. *)
Lemma portMap_of_lookup (nmap : NmapRun.t) (k : string) :
  portMap_of nmap !! k = entry (open_ports nmap) k.
Proof.
  unfold portMap_of. rewrite (fold_left_nested portMap_step Host.Ports).
  rewrite (fold_left_filter portMap_step is_open) by apply portMap_step_skip.
  apply portMap_loop_entry. unfold open_ports.
  apply Forall_forall. intros p Hp. apply list_elem_of_In, filter_In in Hp. tauto.
Qed.

Lemma entry_Some_key (occ : list Port.t) (k : string) (r : PortInfo.t) :
  entry occ k = Some r -> PortInfo.Key r = k.
Proof. unfold entry. destruct (existsb _ _); [|done]. intros [= <-]. done. Qed.

Lemma entry_Some_iff (nmap : NmapRun.t) (k : string) (r : PortInfo.t) :
  entry (open_ports nmap) k = Some r
  <-> k ∈ first_seen (map port_key (open_ports nmap)) /\ r = port_row (open_ports nmap) k.
Proof.
  unfold entry. rewrite first_seen_elem. set (occ := open_ports nmap).
  destruct (existsb (has_key k) occ) eqn:Hk.
  - apply existsb_elem in Hk as (p & Hp & Hkp). apply String.eqb_eq in Hkp.
    split.
    + intros [= <-]. split; [|done]. subst k. apply list_elem_of_In, in_map.
      by apply list_elem_of_In.
    + by intros [_ ->].
  - split; [done|]. intros [Hin _].
    apply list_elem_of_In, in_map_iff in Hin as (p & Hkp & Hp).
    assert (existsb (has_key k) occ = true) as Hex; [|congruence].
    apply existsb_elem. exists p. split; [by apply list_elem_of_In|].
    unfold has_key. rewrite Hkp. apply String.eqb_refl.
Qed.

(** The rows met by [range portMap] are the rows of the table, in some
    order. *)
Lemma portMap_rows_perm (nmap : NmapRun.t) :
  map snd (map_to_list (portMap_of nmap)) ≡ₚ port_table nmap.
Proof.
  apply NoDup_Permutation.
  - apply (NoDup_fmap_2_strong snd). 2: apply NoDup_map_to_list.
    intros [k1 r1] [k2 r2] H1 H2 Heq. simpl in Heq. subst r2.
    apply elem_of_map_to_list in H1, H2.
    rewrite portMap_of_lookup in H1, H2.
    apply entry_Some_key in H1, H2. congruence.
  - unfold port_table. apply (NoDup_fmap_2_strong (port_row (open_ports nmap))).
    2: apply first_seen_NoDup.
    intros k1 k2 _ _ Heq. by injection Heq.
  - intros r. unfold port_table.
    change (r ∈ snd <$> map_to_list (portMap_of nmap) <->
            r ∈ port_row (open_ports nmap) <$> first_seen (map port_key (open_ports nmap))).
    rewrite !list_elem_of_fmap. split.
    + intros ([k r'] & -> & Hin). simpl. exists k.
      apply elem_of_map_to_list in Hin. rewrite portMap_of_lookup in Hin.
      apply entry_Some_iff in Hin. tauto.
    + intros (k & -> & Hk). exists (k, port_row (open_ports nmap) k). split; [done|].
      apply elem_of_map_to_list. rewrite portMap_of_lookup.
      by apply entry_Some_iff.
Qed.

(** Port mode prints the table of the specification, in some order. *)
Lemma port_mode_perm (E : GoRuntime) (nmap : NmapRun.t) :
  port_mode E nmap ≡ₚ port_table nmap.
Proof.
  unfold port_mode. rewrite (sort_Slice_perm E), (map_range_perm E).
  apply portMap_rows_perm.
Qed.

(** ** Vendor mode *)

Lemma devices_snoc (vendor : string) (macs : list Address.t) (a : Address.t) :
  devices vendor (macs ++ [a]) = devices vendor macs + (if sold_by vendor a then 1 else 0).
Proof.
  unfold devices. fold (sold_by vendor).
  rewrite List.filter_app, length_app, Nat2Z.inj_add. simpl.
  by destruct (sold_by vendor a).
Qed.

Lemma vendorMap_step_entry (vendorMap : gmap string Z) (macs : list Address.t)
    (a : Address.t) (vendor : string) :
  is_mac a = true ->
  (forall v, vendorMap !! v = vendor_entry macs v) ->
  vendorMap_step vendorMap a !! vendor = vendor_entry (macs ++ [a]) vendor.
Proof.
  intros Hmac Hinv. unfold vendorMap_step. fold (is_mac a). rewrite Hmac.
  unfold vendor_entry at 1. rewrite existsb_app, devices_snoc. cbn [existsb].
  rewrite orb_false_r. unfold sold_by at 2 3.
  destruct (String.eqb_spec (Address.Vendor a) vendor) as [Hv|Hv].
  - subst vendor. rewrite orb_true_r, lookup_insert_eq.
    unfold index_int. rewrite Hinv. unfold vendor_entry.
    destruct (existsb (sold_by (Address.Vendor a)) macs) eqn:Hseen; [done|].
    unfold devices. fold (sold_by (Address.Vendor a)).
    by rewrite (existsb_false_filter _ _ Hseen).
  - rewrite lookup_insert_ne by done. rewrite Hinv, orb_false_r, Z.add_0_r. done.
Qed.

Lemma vendorMap_loop_entry (macs : list Address.t) (vendor : string) :
  Forall (fun a => is_mac a = true) macs ->
  fold_left vendorMap_step macs ∅ !! vendor = vendor_entry macs vendor.
Proof.
  revert vendor. induction macs as [|a macs IH] using rev_ind; intros vendor Hmacs.
  - apply lookup_empty.
  - apply Forall_app in Hmacs as [Hmacs Ha]. rewrite fold_left_app. cbn [fold_left].
    apply vendorMap_step_entry.
    + by inversion Ha.
    + intros v. by apply IH.
Qed.

Lemma vendorMap_step_skip (vendorMap : gmap string Z) (a : Address.t) :
  is_mac a = false -> vendorMap_step vendorMap a = vendorMap.
Proof. intros Ha. unfold vendorMap_step. fold (is_mac a). by rewrite Ha. Qed.

(** [vendorMap] after the two loops. *)
Lemma vendorMap_of_lookup (nmap : NmapRun.t) (vendor : string) :
  vendorMap_of nmap !! vendor = vendor_entry (mac_addresses nmap) vendor.
Proof.
  unfold vendorMap_of. rewrite (fold_left_nested vendorMap_step Host.Addresses).
  rewrite (fold_left_filter vendorMap_step is_mac) by apply vendorMap_step_skip.
  apply vendorMap_loop_entry. unfold mac_addresses.
  apply Forall_forall. intros a Ha. apply list_elem_of_In, filter_In in Ha. tauto.
Qed.

Lemma vendor_entry_Some_iff (nmap : NmapRun.t) (vendor : string) (n : Z) :
  vendor_entry (mac_addresses nmap) vendor = Some n
  <-> vendor ∈ first_seen (map Address.Vendor (mac_addresses nmap))
      /\ n = devices vendor (mac_addresses nmap).
Proof.
  unfold vendor_entry. rewrite first_seen_elem. set (macs := mac_addresses nmap).
  destruct (existsb (sold_by vendor) macs) eqn:Hv.
  - apply existsb_elem in Hv as (a & Ha & Hva). apply String.eqb_eq in Hva.
    split.
    + intros [= <-]. split; [|done]. subst vendor. apply list_elem_of_In, in_map.
      by apply list_elem_of_In.
    + by intros [_ ->].
  - split; [done|]. intros [Hin _].
    apply list_elem_of_In, in_map_iff in Hin as (a & Hva & Ha).
    assert (existsb (sold_by vendor) macs = true) as Hex; [|congruence].
    apply existsb_elem. exists a. split; [by apply list_elem_of_In|].
    unfold sold_by. rewrite Hva. apply String.eqb_refl.
Qed.

Lemma vendorMap_rows_perm (nmap : NmapRun.t) :
  map (fun kv => VendorInfo.mk (fst kv) (snd kv)) (map_to_list (vendorMap_of nmap))
  ≡ₚ vendor_table nmap.
Proof.
  apply NoDup_Permutation.
  - apply (NoDup_fmap_2_strong (fun kv : string * Z => VendorInfo.mk (fst kv) (snd kv))).
    2: apply NoDup_map_to_list.
    intros [k1 n1] [k2 n2] _ _ Heq. simpl in Heq. by injection Heq as -> ->.
  - unfold vendor_table.
    apply (NoDup_fmap_2_strong (fun v => VendorInfo.mk v (devices v (mac_addresses nmap)))).
    2: apply first_seen_NoDup.
    intros v1 v2 _ _ Heq. by injection Heq.
  - intros r. unfold vendor_table.
    change (r ∈ (fun kv : string * Z => VendorInfo.mk (fst kv) (snd kv))
                  <$> map_to_list (vendorMap_of nmap) <->
            r ∈ (fun v => VendorInfo.mk v (devices v (mac_addresses nmap)))
                  <$> first_seen (map Address.Vendor (mac_addresses nmap))).
    rewrite !list_elem_of_fmap. split.
    + intros ([v n] & -> & Hin). simpl. exists v.
      apply elem_of_map_to_list in Hin. rewrite vendorMap_of_lookup in Hin.
      apply vendor_entry_Some_iff in Hin as [Hv ->]. done.
    + intros (v & -> & Hv). exists (v, devices v (mac_addresses nmap)). split; [done|].
      apply elem_of_map_to_list. rewrite vendorMap_of_lookup.
      by apply vendor_entry_Some_iff.
Qed.

(** Vendor mode prints the table of the specification, in some order. *)
Lemma vendor_mode_perm (E : GoRuntime) (nmap : NmapRun.t) :
  vendor_mode E nmap ≡ₚ vendor_table nmap.
Proof.
  unfold vendor_mode. rewrite (sort_Slice_perm E), (map_range_perm E).
  apply vendorMap_rows_perm.
Qed.

(** Hostname mode prints the rows of the matched hosts, in some order. *)
Lemma hostname_mode_perm (E : GoRuntime) (wherePorts : string) (nmap : NmapRun.t) :
  hostname_mode E wherePorts nmap ≡ₚ host_table wherePorts nmap.
Proof.
  unfold hostname_mode. by rewrite (sort_Slice_perm E), host_results_spec.
Qed.

(** ** Hostname mode: the claims *)

Lemma hostname_mode_elem (E : GoRuntime) (wherePorts : string) (nmap : NmapRun.t)
    (r : HostInfo.t) :
  r ∈ hostname_mode E wherePorts nmap
  <-> exists h, h ∈ NmapRun.Hosts nmap /\ host_row wherePorts h = Some r.
Proof.
  rewrite (hostname_mode_perm E). unfold host_table. apply list_elem_of_omap.
Qed.

Lemma host_row_Some (wherePorts : string) (h : Host.t) (r : HostInfo.t) :
  host_row wherePorts h = Some r ->
  existsb (listed wherePorts) (Host.Ports h) = true
  /\ HostInfo.Hostname r = hostname_of h
  /\ HostInfo.IPv4 r = from_option Address.Addr "" (last_tagged is_ipv4 (Host.Addresses h))
  /\ HostInfo.MAC r = from_option Address.Addr "" (last_tagged is_mac (Host.Addresses h))
  /\ HostInfo.Vendor r = from_option Address.Vendor "" (last_tagged is_mac (Host.Addresses h))
  /\ HostInfo.CountOpen r = Z.of_nat (length (List.filter is_open (Host.Ports h)))
  /\ HostInfo.Ports r
     = Go.Join (map (fun p => Go.Itoa (Port.PortID p))
                    (List.filter (listed wherePorts) (Host.Ports h))) ",".
Proof.
  unfold host_row. destruct (existsb (listed wherePorts) (Host.Ports h)); [|done].
  intros [= <-]. simpl. tauto.
Qed.

Lemma listed_le_open (wherePorts : string) (ports : list Port.t) :
  (length (List.filter (listed wherePorts) ports) <= length (List.filter is_open ports))%nat.
Proof.
  induction ports as [|p ports IH]; simpl; [done|].
  unfold listed at 1. destruct (is_open p); simpl.
  - destruct (matches wherePorts p); simpl; lia.
  - done.
Qed.

(** One host in the report: its row, whatever the runtime. *)
Lemma hostname_mode_one_host (E : GoRuntime) (wherePorts : string) (h : Host.t) :
  hostname_mode E wherePorts (NmapRun.mk [h]) = option_list (host_row wherePorts h).
Proof.
  unfold hostname_mode. rewrite host_results_spec. unfold host_table. simpl.
  destruct (host_row wherePorts h) as [r|]; simpl.
  - apply sort_Slice_singleton.
  - apply Permutation_nil_r, (sort_Slice_perm E).
Qed.

(** C3.  Hostname mode, for any [-whereport] string and any host: the loop
    over the ports leaves in [countOpen] the number of all the open ports of
    the host, whatever the filter; it lists in [openPort] the ids of the
    open ports that pass the filter, and sets [match] when there is one; a
    port passes when the filter is empty or holds the decimal string of its
    id.  The host's row is appended exactly when [match] is set, so the rows
    printed are the rows of the matched hosts.  The number of ids listed
    never exceeds [CountOpen] and can be smaller: with the filter ["22"],
    host A of the example has [CountOpen] 2 and lists the single id 22, and
    the report of the example gives the row of A, then the row of B. *)
Theorem C3_count_all_open_list_matching (E : GoRuntime) (wherePorts : string) :
  (forall h : Host.t,
      scan_ports (no_filter wherePorts) (portSet wherePorts) (Host.Ports h)
      = (Z.of_nat (length (List.filter is_open (Host.Ports h))),
         existsb (listed wherePorts) (Host.Ports h),
         map (fun p => Go.Itoa (Port.PortID p))
             (List.filter (listed wherePorts) (Host.Ports h))))
  /\ (forall p : Port.t,
         listed wherePorts p
         = is_open p && (no_filter wherePorts
                         || index_bool (portSet wherePorts) (Go.Itoa (Port.PortID p))))
  /\ (forall (results : list HostInfo.t) (h : Host.t),
         host_step (no_filter wherePorts) (portSet wherePorts) results h
         = if existsb (listed wherePorts) (Host.Ports h)
           then (results ++ option_list (host_row wherePorts h))%list
           else results)
  /\ (forall (nmap : NmapRun.t) (r : HostInfo.t),
         r ∈ hostname_mode E wherePorts nmap
         <-> exists h, h ∈ NmapRun.Hosts nmap
                       /\ existsb (listed wherePorts) (Host.Ports h) = true
                       /\ host_row wherePorts h = Some r)
  /\ (forall h : Host.t,
         Z.of_nat (length (List.filter (listed wherePorts) (Host.Ports h)))
         <= Z.of_nat (length (List.filter is_open (Host.Ports h))))
  /\ hostname_mode E "22" (NmapRun.mk [host_A])
     = [HostInfo.mk "" "10.0.0.1" "" "" 2 "22"]
  /\ hostname_mode E "22" report_AB
     = [HostInfo.mk "" "10.0.0.1" "" "" 2 "22"; HostInfo.mk "" "10.0.0.2" "" "" 1 "22"].
Proof.
  split; [intros h; apply scan_ports_spec|].
  split; [intros p; unfold listed; by rewrite port_step_matches|].
  split.
  { intros results h. rewrite host_step_spec. unfold host_row.
    destruct (existsb (listed wherePorts) (Host.Ports h)); [done|].
    apply app_nil_r. }
  split.
  { intros nmap r. rewrite hostname_mode_elem. split.
    - intros (h & Hh & Hrow). exists h. split; [done|]. split; [|done].
      by apply host_row_Some in Hrow as [? _].
    - intros (h & Hh & _ & Hrow). by exists h. }
  split; [intros h; apply inj_le, listed_le_open|].
  split; [by rewrite hostname_mode_one_host|].
  apply (Ranked_pair HostInfo.CountOpen); [|apply (sort_Slice_Ranked HostInfo.CountOpen)|done].
  by rewrite (hostname_mode_perm E).
Qed.

Lemma last_tagged_split (tagged : Address.t -> bool) (pre post : list Address.t)
    (a : Address.t) :
  tagged a = true -> (forall x, x ∈ post -> tagged x = false) ->
  last_tagged tagged (pre ++ a :: post) = Some a.
Proof.
  intros Ha Hpost. unfold last_tagged.
  rewrite rev_app_distr. simpl. rewrite <- app_assoc, find_app.
  assert (List.find tagged (rev post) = None) as ->.
  { destruct (List.find tagged (rev post)) as [x|] eqn:Hx; [|done].
    apply find_some in Hx as [Hin Hx]. apply in_rev, list_elem_of_In, Hpost in Hin.
    congruence. }
  simpl. by rewrite Ha.
Qed.

Lemma last_tagged_none (tagged : Address.t -> bool) (addrs : list Address.t) :
  (forall x, x ∈ addrs -> tagged x = false) -> last_tagged tagged addrs = None.
Proof.
  intros Hall. unfold last_tagged.
  destruct (List.find tagged (rev addrs)) as [x|] eqn:Hx; [|done].
  apply find_some in Hx as [Hin Hx]. apply in_rev, list_elem_of_In, Hall in Hin.
  congruence.
Qed.

(** C6.  Hostname mode, for every host: [hostname] is the name of the first
    entry of the host's hostname list, empty when the list is empty; after
    the loop over the addresses, [ipv4] is the address of the last entry
    tagged ipv4, and [mac] and [vendor] are the address and the vendor of
    the last entry tagged mac, each empty when no entry has the tag (the
    last one tagged being the one no tagged entry follows).  Every row
    printed carries these four values of its host. *)
Theorem C6_first_hostname_last_address (E : GoRuntime) (wherePorts : string)
    (nmap : NmapRun.t) :
  (forall h : Host.t,
      hostname_of h = from_option Hostname.Name "" (head (Host.Hostnames h))
      /\ scan_addresses (Host.Addresses h)
         = (from_option Address.Addr "" (last_tagged is_ipv4 (Host.Addresses h)),
            from_option Address.Addr "" (last_tagged is_mac (Host.Addresses h)),
            from_option Address.Vendor "" (last_tagged is_mac (Host.Addresses h))))
  /\ (forall (tagged : Address.t -> bool) (pre post : list Address.t) (a : Address.t),
         tagged a = true -> (forall x, x ∈ post -> tagged x = false) ->
         last_tagged tagged (pre ++ a :: post) = Some a)
  /\ (forall (tagged : Address.t -> bool) (addrs : list Address.t),
         (forall x, x ∈ addrs -> tagged x = false) -> last_tagged tagged addrs = None)
  /\ (forall r : HostInfo.t,
         r ∈ hostname_mode E wherePorts nmap ->
         exists h, h ∈ NmapRun.Hosts nmap
           /\ HostInfo.Hostname r = from_option Hostname.Name "" (head (Host.Hostnames h))
           /\ HostInfo.IPv4 r
              = from_option Address.Addr "" (last_tagged is_ipv4 (Host.Addresses h))
           /\ HostInfo.MAC r
              = from_option Address.Addr "" (last_tagged is_mac (Host.Addresses h))
           /\ HostInfo.Vendor r
              = from_option Address.Vendor "" (last_tagged is_mac (Host.Addresses h)))
  /\ hostname_mode E "" (NmapRun.mk [host_many])
     = [HostInfo.mk "first.local" "10.0.0.8" "BB:BB" "Cisco" 1 "443"].
Proof.
  split.
  { intros h. split.
    - unfold hostname_of. by destruct (Host.Hostnames h).
    - apply scan_addresses_loop. }
  split; [apply last_tagged_split|].
  split; [apply last_tagged_none|].
  split.
  { intros r Hr. apply hostname_mode_elem in Hr as (h & Hh & Hrow).
    exists h. split; [done|].
    apply host_row_Some in Hrow as (_ & Hname & Hip & Hmac & Hvendor & _).
    rewrite Hname, Hip, Hmac, Hvendor. unfold hostname_of.
    by destruct (Host.Hostnames h). }
  by rewrite hostname_mode_one_host.
Qed.

Lemma C6_witness :
  HostInfo.mk "first.local" "10.0.0.8" "BB:BB" "Cisco" 1 "443"
    ∈ hostname_mode (runtime false) "" (NmapRun.mk [host_many])
  /\ exists h, h ∈ [host_many]
       /\ "first.local" = from_option Hostname.Name "" (head (Host.Hostnames h))
       /\ "10.0.0.8" = from_option Address.Addr "" (last_tagged is_ipv4 (Host.Addresses h))
       /\ "BB:BB" = from_option Address.Addr "" (last_tagged is_mac (Host.Addresses h))
       /\ "Cisco" = from_option Address.Vendor "" (last_tagged is_mac (Host.Addresses h)).
Proof.
  assert (HostInfo.mk "first.local" "10.0.0.8" "BB:BB" "Cisco" 1 "443"
            ∈ hostname_mode (runtime false) "" (NmapRun.mk [host_many])) as Hrow.
  { vm_compute. left. }
  split; [exact Hrow|].
  exact (proj1 (proj2 (proj2 (proj2 (C6_first_hostname_last_address (runtime false) ""
                                       (NmapRun.mk [host_many])))))
               (HostInfo.mk "first.local" "10.0.0.8" "BB:BB" "Cisco" 1 "443") Hrow).
Defined.

(** C10.  Hostname mode: the [Ports] field of a row is the ids of its host's
    open ports that pass the filter, in the order of the host's port list,
    joined by commas; an id is listed once per port, and whether a port is
    listed depends on its state and id only, not on its protocol.  A host
    with 22/tcp and 22/udp open, with no filter or with the filter ["22"],
    has [Ports] ["22,22"] and [CountOpen] 2. *)
Theorem C10_ports_field_in_port_order (E : GoRuntime) (wherePorts : string)
    (nmap : NmapRun.t) :
  (forall r : HostInfo.t,
      r ∈ hostname_mode E wherePorts nmap ->
      exists h, h ∈ NmapRun.Hosts nmap
        /\ HostInfo.Ports r
           = Go.Join (map (fun p => Go.Itoa (Port.PortID p))
                          (List.filter (listed wherePorts) (Host.Ports h))) ","
        /\ HostInfo.CountOpen r = Z.of_nat (length (List.filter is_open (Host.Ports h))))
  /\ (forall p q : Port.t,
         Port.PortID p = Port.PortID q -> Port.State p = Port.State q ->
         listed wherePorts p = listed wherePorts q)
  /\ (forall (addrs : list Address.t) (names : list Hostname.t),
         map (fun r => (HostInfo.CountOpen r, HostInfo.Ports r))
             (hostname_mode E "" (NmapRun.mk [host_22_twice addrs names]))
         = [(2, "22,22")]
         /\ map (fun r => (HostInfo.CountOpen r, HostInfo.Ports r))
                (hostname_mode E "22" (NmapRun.mk [host_22_twice addrs names]))
            = [(2, "22,22")]).
Proof.
  split.
  { intros r Hr. apply hostname_mode_elem in Hr as (h & Hh & Hrow).
    exists h. split; [done|].
    apply host_row_Some in Hrow as (_ & _ & _ & _ & _ & Hcount & Hports).
    by rewrite Hcount, Hports. }
  split.
  { intros p q Hid Hstate. unfold listed, matches, is_open. by rewrite Hid, Hstate. }
  intros addrs names. by rewrite !hostname_mode_one_host.
Qed.

Lemma C10_witness :
  HostInfo.mk "" "" "" "" 2 "22,22"
    ∈ hostname_mode (runtime false) "22" (NmapRun.mk [host_22_twice [] []])
  /\ exists h, h ∈ [host_22_twice [] []]
       /\ "22,22" = Go.Join (map (fun p => Go.Itoa (Port.PortID p))
                                 (List.filter (listed "22") (Host.Ports h))) ","
       /\ 2 = Z.of_nat (length (List.filter is_open (Host.Ports h))).
Proof.
  assert (HostInfo.mk "" "" "" "" 2 "22,22"
            ∈ hostname_mode (runtime false) "22" (NmapRun.mk [host_22_twice [] []])) as Hrow.
  { vm_compute. left. }
  split; [exact Hrow|].
  exact (proj1 (C10_ports_field_in_port_order (runtime false) "22"
                  (NmapRun.mk [host_22_twice [] []]))
               (HostInfo.mk "" "" "" "" 2 "22,22") Hrow).
Defined.

Lemma host_row_ext (w1 w2 : string) (h : Host.t) :
  (forall p, p ∈ Host.Ports h -> listed w1 p = listed w2 p) ->
  host_row w1 h = host_row w2 h.
Proof.
  intros Hsame. unfold host_row.
  assert (List.filter (listed w1) (Host.Ports h) = List.filter (listed w2) (Host.Ports h))
    as Hfilter.
  { apply filter_ext_in. intros p Hp. by apply Hsame, list_elem_of_In. }
  assert (existsb (listed w1) (Host.Ports h) = existsb (listed w2) (Host.Ports h)) as Hex.
  { clear Hfilter. induction (Host.Ports h) as [|p ports IH]; simpl; [done|].
    rewrite Hsame by apply list_elem_of_here. f_equal. apply IH.
    intros q Hq. by apply Hsame, list_elem_of_further. }
  by rewrite Hfilter, Hex.
Qed.

Lemma port_of_host_open (nmap : NmapRun.t) (h : Host.t) (p : Port.t) :
  h ∈ NmapRun.Hosts nmap -> p ∈ Host.Ports h -> is_open p = true -> p ∈ open_ports nmap.
Proof.
  intros Hh Hp Hopen. apply list_elem_of_In, filter_In. split; [|done].
  unfold all_ports. apply in_concat. exists (Host.Ports h).
  split; [apply in_map|]; by apply list_elem_of_In.
Qed.

(** C4.  Hostname mode prints the same rows, in the same order, with no
    filter and with a filter that holds the decimal string of the id of
    every open port of the report. *)
Theorem C4_no_filter_is_full_filter (E : GoRuntime) (wherePorts : string)
    (nmap : NmapRun.t) :
  Forall (fun p => index_bool (portSet wherePorts) (Go.Itoa (Port.PortID p)) = true)
         (open_ports nmap) ->
  hostname_mode E wherePorts nmap = hostname_mode E "" nmap.
Proof.
  intros Hfull. unfold hostname_mode. f_equal. rewrite !host_results_spec.
  unfold host_table. apply list_omap_ext, Forall_Forall2_diag, Forall_forall.
  intros h Hh. apply host_row_ext. intros p Hp. unfold listed.
  destruct (is_open p) eqn:Hopen; [|done]. cbn [andb].
  rewrite Forall_forall in Hfull.
  rewrite <- !port_step_matches, (Hfull p) by by eapply port_of_host_open.
  by rewrite orb_true_r.
Qed.

Lemma C4_witness :
  Forall (fun p => index_bool (portSet "22,80") (Go.Itoa (Port.PortID p)) = true)
         (open_ports report_AB)
  /\ hostname_mode (runtime false) "22,80" report_AB
     = hostname_mode (runtime false) "" report_AB.
Proof.
  assert (Forall (fun p => index_bool (portSet "22,80") (Go.Itoa (Port.PortID p)) = true)
                 (open_ports report_AB)) as Hfull.
  { repeat constructor. }
  split; [exact Hfull|].
  exact (C4_no_filter_is_full_filter (runtime false) "22,80" report_AB Hfull).
Defined.

(** C9.  Hostname mode with a filter: the set holds a key exactly when the
    key is the white-space-trimmed form of a field between two commas of
    the [-whereport] string, and an open port is listed exactly when the set
    holds the decimal string of its id, character for character.  So
    ["022"] and ["0x16"] do not select port 22, and [" 22 "] does. *)
Theorem C9_trimmed_fields_exact_match (E : GoRuntime) (wherePorts : string) (p : Port.t) :
  (index_bool (portSet wherePorts) (Go.Itoa (Port.PortID p)) = true
   <-> exists field, field ∈ Go.Split wherePorts ","%char
                     /\ Go.TrimSpace field = Go.Itoa (Port.PortID p))
  /\ (no_filter wherePorts = false -> is_open p = true ->
      scan_ports (no_filter wherePorts) (portSet wherePorts) [p]
      = if index_bool (portSet wherePorts) (Go.Itoa (Port.PortID p))
        then (1, true, [Go.Itoa (Port.PortID p)])
        else (1, false, []))
  /\ (Port.PortID p = 22 ->
      index_bool (portSet "022") (Go.Itoa (Port.PortID p)) = false
      /\ index_bool (portSet "0x16") (Go.Itoa (Port.PortID p)) = false
      /\ index_bool (portSet " 22 ") (Go.Itoa (Port.PortID p)) = true)
  /\ hostname_mode E "022" (NmapRun.mk [host_B]) = []
  /\ hostname_mode E "0x16" (NmapRun.mk [host_B]) = []
  /\ hostname_mode E " 22 " (NmapRun.mk [host_B])
     = [HostInfo.mk "" "10.0.0.2" "" "" 1 "22"]
  /\ hostname_mode E "80, 22 ,443" (NmapRun.mk [host_B])
     = [HostInfo.mk "" "10.0.0.2" "" "" 1 "22"].
Proof.
  split.
  { rewrite portSet_index, existsb_eqb_elem. unfold requested.
    change (Go.Itoa (Port.PortID p) ∈ Go.TrimSpace <$> Go.Split wherePorts ","%char
            <-> exists field, field ∈ Go.Split wherePorts ","%char
                              /\ Go.TrimSpace field = Go.Itoa (Port.PortID p)).
    rewrite list_elem_of_fmap. split; intros (field & H1 & H2); exists field; done. }
  split.
  { intros Hfilter Hopen. unfold scan_ports. cbn [fold_left]. unfold port_step.
    rewrite Hopen, Hfilter. cbn [orb].
    by destruct (index_bool (portSet wherePorts) (Go.Itoa (Port.PortID p))). }
  split; [by intros ->|].
  by rewrite !hostname_mode_one_host.
Qed.

Lemma C9_witness :
  no_filter " 22 " = false
  /\ is_open (a_port 22 "tcp" "open" "ssh") = true
  /\ scan_ports (no_filter " 22 ") (portSet " 22 ") [a_port 22 "tcp" "open" "ssh"]
     = (1, true, ["22"]).
Proof.
  split; [reflexivity|]. split; [reflexivity|].
  exact (proj1 (proj2 (C9_trimmed_fields_exact_match (runtime false) " 22 "
                         (a_port 22 "tcp" "open" "ssh")))
               eq_refl eq_refl).
Defined.

(** ** Port mode: the claims *)

Lemma port_mode_elem (E : GoRuntime) (nmap : NmapRun.t) (r : PortInfo.t) :
  r ∈ port_mode E nmap
  <-> exists k, k ∈ map port_key (open_ports nmap) /\ r = port_row (open_ports nmap) k.
Proof.
  rewrite (port_mode_perm E). unfold port_table.
  change (r ∈ port_row (open_ports nmap) <$> first_seen (map port_key (open_ports nmap))
          <-> exists k, k ∈ map port_key (open_ports nmap)
                        /\ r = port_row (open_ports nmap) k).
  rewrite list_elem_of_fmap. split; intros (k & H1 & H2); exists k.
  - by rewrite <- first_seen_elem.
  - by rewrite first_seen_elem.
Qed.

Lemma port_table_keys (nmap : NmapRun.t) :
  map PortInfo.Key (port_table nmap) = first_seen (map port_key (open_ports nmap)).
Proof. unfold port_table. rewrite map_map. apply map_id. Qed.

(** One key in the report: its row, whatever the runtime. *)
Lemma port_mode_one_key (E : GoRuntime) (nmap : NmapRun.t) (r : PortInfo.t) :
  port_table nmap = [r] -> port_mode E nmap = [r].
Proof.
  intros Htable. apply Permutation_singleton_r. rewrite <- Htable.
  apply port_mode_perm.
Qed.

(** C5.  Port mode.  One turn of the loop on an open port: a key that is
    new gets an entry with the port's service name and the count 1; a key
    that has an entry keeps its service name and its count grows by one; no
    other entry changes.  So, for every key of an open port, the row
    printed has the service name of the first open port with this key in
    input order (hosts in order, the ports of a host in order) and the
    number of all the open ports with this key, two in the same host
    counting twice; there is one row per key and no other row. *)
Theorem C5_first_service_every_occurrence (E : GoRuntime) (nmap : NmapRun.t) :
  (forall (portMap : gmap string PortInfo.t) (p : Port.t),
      is_open p = true ->
      portMap_step portMap p !! port_key p
      = match portMap !! port_key p with
        | Some v => Some (PortInfo.mk (PortInfo.Key v) (PortInfo.Service v)
                                      (PortInfo.Count v + 1))
        | None => Some (PortInfo.mk (port_key p) (Service.Name (Port.Service p)) 1)
        end)
  /\ (forall (portMap : gmap string PortInfo.t) (p : Port.t) (k : string),
         k <> port_key p -> portMap_step portMap p !! k = portMap !! k)
  /\ (forall k : string,
         k ∈ map port_key (open_ports nmap) ->
         exists r, r ∈ port_mode E nmap
           /\ PortInfo.Key r = k
           /\ PortInfo.Service r = first_service k (open_ports nmap)
           /\ PortInfo.Count r = occurrences k (open_ports nmap))
  /\ (forall r : PortInfo.t,
         r ∈ port_mode E nmap ->
         PortInfo.Key r ∈ map port_key (open_ports nmap)
         /\ PortInfo.Service r = first_service (PortInfo.Key r) (open_ports nmap)
         /\ PortInfo.Count r = occurrences (PortInfo.Key r) (open_ports nmap))
  /\ NoDup (map PortInfo.Key (port_mode E nmap))
  /\ port_mode E report_80_thrice = [PortInfo.mk "80/tcp" "http" 3].
Proof.
  split.
  { intros portMap p Hopen. unfold portMap_step. rewrite Hopen, lookup_alter_eq.
    destruct (portMap !! port_key p) as [v|] eqn:Hv.
    - by rewrite Hv.
    - by rewrite lookup_insert_eq. }
  split.
  { intros portMap p k Hk. unfold portMap_step. destruct (is_open p); [|done].
    rewrite lookup_alter_ne by done.
    destruct (portMap !! port_key p); [done|]. by rewrite lookup_insert_ne. }
  split.
  { intros k Hk. exists (port_row (open_ports nmap) k). split; [|done].
    apply port_mode_elem. by exists k. }
  split.
  { intros r Hr. apply port_mode_elem in Hr as (k & Hk & ->). done. }
  split.
  { rewrite (port_mode_perm E), port_table_keys. apply first_seen_NoDup. }
  by apply port_mode_one_key.
Qed.

Lemma C5_witness :
  "80/tcp" ∈ map port_key (open_ports report_80_thrice)
  /\ exists r, r ∈ port_mode (runtime false) report_80_thrice
       /\ PortInfo.Key r = "80/tcp"
       /\ PortInfo.Service r = first_service "80/tcp" (open_ports report_80_thrice)
       /\ PortInfo.Count r = occurrences "80/tcp" (open_ports report_80_thrice).
Proof.
  assert ("80/tcp" ∈ map port_key (open_ports report_80_thrice)) as Hkey.
  { vm_compute. left. }
  split; [exact Hkey|].
  exact (proj1 (proj2 (proj2 (C5_first_service_every_occurrence (runtime false)
                                report_80_thrice))) "80/tcp" Hkey).
Defined.

(** The example of the specification: 22/tcp, open on both hosts, comes
    before 80/tcp, open on one, whatever the order of [range]. *)
Lemma port_mode_report_AB (E : GoRuntime) :
  port_mode E report_AB = [PortInfo.mk "22/tcp" "ssh" 2; PortInfo.mk "80/tcp" "http" 1].
Proof.
  apply (Ranked_pair PortInfo.Count); [|apply (sort_Slice_Ranked PortInfo.Count)|done].
  by rewrite (port_mode_perm E).
Qed.

(** ** Vendor mode: the claims *)

Lemma vendor_mode_one_vendor (E : GoRuntime) (nmap : NmapRun.t) (r : VendorInfo.t) :
  vendor_table nmap = [r] -> vendor_mode E nmap = [r].
Proof.
  intros Htable. apply Permutation_singleton_r. rewrite <- Htable.
  apply vendor_mode_perm.
Qed.

(** C7.  Vendor mode: every address tagged mac adds one to the value of its
    vendor string in [vendorMap], and the rows printed are one row per
    distinct vendor string of these addresses, with the number of them that
    carry the string, the empty string being a vendor like any other.  When the
    report has exactly two addresses tagged mac and neither has a vendor,
    the rows are the single row of name [""] and count 2. *)
Theorem C7_empty_vendor_is_a_bucket (E : GoRuntime) (nmap : NmapRun.t) :
  (forall (vendorMap : gmap string Z) (a : Address.t),
      is_mac a = true ->
      vendorMap_step vendorMap a !! Address.Vendor a
      = Some (index_int vendorMap (Address.Vendor a) + 1))
  /\ vendor_mode E nmap ≡ₚ vendor_table nmap
  /\ (forall a1 a2 : Address.t,
         mac_addresses nmap = [a1; a2] ->
         Address.Vendor a1 = "" -> Address.Vendor a2 = "" ->
         vendor_mode E nmap = [VendorInfo.mk "" 2]).
Proof.
  split.
  { intros vendorMap a Hmac. unfold vendorMap_step. fold (is_mac a).
    by rewrite Hmac, lookup_insert_eq. }
  split; [apply vendor_mode_perm|].
  intros a1 a2 Hmacs H1 H2. apply vendor_mode_one_vendor.
  unfold vendor_table, devices. rewrite Hmacs. cbn [map]. rewrite H1, H2.
  cbn. rewrite H1, H2. done.
Qed.

Lemma C7_witness :
  mac_addresses report_no_vendor = [Address.mk "AA:AA" "mac" ""; Address.mk "BB:BB" "mac" ""]
  /\ vendor_mode (runtime true) report_no_vendor = [VendorInfo.mk "" 2].
Proof.
  split; [reflexivity|].
  exact (proj2 (proj2 (C7_empty_vendor_is_a_bucket (runtime true) report_no_vendor))
               (Address.mk "AA:AA" "mac" "") (Address.mk "BB:BB" "mac" "")
               eq_refl eq_refl eq_refl).
Defined.

(** ** Dispatch *)

(** C8.  For every value of the three mode flags, of the other flags and of
    the report: with [-hostname] the output is the hostname report, whatever
    [-port] and [-vendor]; without it and with [-port], the port report,
    whatever [-vendor]; with [-vendor] alone, the vendor report; with no mode
    flag, [main] returns normally having written nothing. *)
Theorem C8_first_set_flag_wins (E : GoRuntime) (file whereport : string)
    (port vendor csv : bool) (nmap : NmapRun.t) :
  main E (Build_Flags file whereport true port vendor csv) (Parsed nmap)
  = Return (print_hosts csv (hostname_mode E whereport nmap))
  /\ main E (Build_Flags file whereport false true vendor csv) (Parsed nmap)
     = Return (print_ports csv (port_mode E nmap))
  /\ main E (Build_Flags file whereport false false true csv) (Parsed nmap)
     = Return (print_vendors csv (vendor_mode E nmap))
  /\ main E (Build_Flags file whereport false false false csv) (Parsed nmap)
     = Return [].
Proof. repeat split. Qed.

(** ** The order of rows of equal count *)

Section Ties.
Context {A : Type} (count : A -> Z).

(** An element moves left only past elements of a smaller count. *)
Lemma sink_ties (x : A) (rprefix : list A) (c : Z) :
  List.filter (fun a => Z.eqb (count a) c) (sink (by_count count) x rprefix)
  = List.filter (fun a => Z.eqb (count a) c) (x :: rprefix).
Proof.
  induction rprefix as [|y rest IH]; [done|].
  cbn [sink]. unfold by_count at 1. destruct (count x >? count y) eqn:Hxy; [|done].
  cbn [List.filter] in *. rewrite IH.
  rewrite Z.gtb_ltb, Z.ltb_lt in Hxy.
  destruct (Z.eqb_spec (count x) c), (Z.eqb_spec (count y) c); try done; lia.
Qed.

Lemma insertion_loop_ties (x acc : list A) (c : Z) :
  List.filter (fun a => Z.eqb (count a) c)
              (fold_left (fun rprefix a => sink (by_count count) a rprefix) x acc)
  = (rev (List.filter (fun a => Z.eqb (count a) c) x)
     ++ List.filter (fun a => Z.eqb (count a) c) acc)%list.
Proof.
  revert acc. induction x as [|a x IH]; intros acc; [done|].
  cbn [fold_left]. rewrite IH, sink_ties. cbn [List.filter].
  destruct (Z.eqb (count a) c); [|done].
  cbn [rev]. by rewrite <- app_assoc.
Qed.

(** Insertion sort is stable. *)
Lemma insertionSort_ties (x : list A) :
  TiesKeep count x (insertionSort (by_count count) x).
Proof.
  intros c. unfold insertionSort.
  rewrite filter_rev, insertion_loop_ties. cbn [List.filter].
  by rewrite app_nil_r, rev_involutive.
Qed.

(** On a slice of at most 12 rows Go sorts by insertion, which keeps rows of
    equal count in place. *)
Lemma sort_Slice_ties (E : GoRuntime) (x : list A) :
  SortsAsGo E -> (length x <= 12)%nat ->
  TiesKeep count x (sort_Slice E (by_count count) x).
Proof.
  intros HE Hlen. rewrite HE by lia. unfold sort_Slice_Go.
  destruct (Nat.leb_spec (length x) 12) as [_|Hgt]; [|lia].
  apply insertionSort_ties.
Qed.

End Ties.

(** C2, as the specification states it, fails in each of the three modes.

    Port mode: the first report has the keys 22/tcp and 80/tcp, first seen
    in this order and each counted once.  On the runtime whose [range]
    visits [portMap] in one order, port mode prints 22/tcp first; on the
    runtime whose [range] visits it in the opposite order, it prints 80/tcp
    first: the two runs differ, and the second does not keep the first-seen
    order.

    Vendor mode: the second report has the vendors Intel and Cisco, first
    seen in this order, one device each; vendor mode prints Cisco first on
    one runtime, Intel first on the other.

    Hostname mode: the third report has 13 hosts, h0 to h12, all matched
    without a filter, with 2 open ports at even rank and 1 at odd rank.
    [sort.Slice] partitions a slice of 13 rows around a pivot before it
    sorts by insertion, and the rows of 2 open ports come out in the order
    h8, h12, h2, h0, h4, h10, h6, not in input order; so they do on every
    runtime that sorts as Go does. *)
Lemma C2_ties_leave_first_seen_order :
  (port_table report_two_ports
   = [PortInfo.mk "22/tcp" "ssh" 1; PortInfo.mk "80/tcp" "http" 1]
   /\ port_mode (runtime false) report_two_ports
      = [PortInfo.mk "22/tcp" "ssh" 1; PortInfo.mk "80/tcp" "http" 1]
   /\ port_mode (runtime true) report_two_ports
      = [PortInfo.mk "80/tcp" "http" 1; PortInfo.mk "22/tcp" "ssh" 1]
   /\ ~ TiesKeep PortInfo.Count (port_table report_two_ports)
                 (port_mode (runtime true) report_two_ports))
  /\ (vendor_table report_two_vendors = [VendorInfo.mk "Intel" 1; VendorInfo.mk "Cisco" 1]
      /\ vendor_mode (runtime false) report_two_vendors
         = [VendorInfo.mk "Cisco" 1; VendorInfo.mk "Intel" 1]
      /\ vendor_mode (runtime true) report_two_vendors
         = [VendorInfo.mk "Intel" 1; VendorInfo.mk "Cisco" 1]
      /\ ~ TiesKeep VendorInfo.Count (vendor_table report_two_vendors)
                    (vendor_mode (runtime false) report_two_vendors))
  /\ (map (fun r => (HostInfo.Hostname r, HostInfo.CountOpen r)) (host_table "" report_13)
      = [("h0", 2); ("h1", 1); ("h2", 2); ("h3", 1); ("h4", 2);
          ("h5", 1); ("h6", 2); ("h7", 1); ("h8", 2); ("h9", 1);
          ("h10", 2); ("h11", 1); ("h12", 2)]
      /\ map (fun r => (HostInfo.Hostname r, HostInfo.CountOpen r))
             (hostname_mode (runtime false) "" report_13)
         = [("h8", 2); ("h12", 2); ("h2", 2); ("h0", 2); ("h4", 2);
          ("h10", 2); ("h6", 2); ("h3", 1); ("h7", 1); ("h9", 1);
          ("h5", 1); ("h11", 1); ("h1", 1)]
      /\ ~ TiesKeep HostInfo.CountOpen (host_table "" report_13)
                    (hostname_mode (runtime false) "" report_13)
      /\ (forall E : GoRuntime,
             SortsAsGo E ->
             hostname_mode E "" report_13 = hostname_mode (runtime false) "" report_13)).
Proof.
  split; [|split].
  - repeat split; try reflexivity.
    intros Hties. specialize (Hties 1). vm_compute in Hties. discriminate Hties.
  - repeat split; try reflexivity.
    intros Hties. specialize (Hties 1). vm_compute in Hties. discriminate Hties.
  - split; [by vm_compute|]. split; [by vm_compute|]. split.
    + intros Hties. specialize (Hties 2). vm_compute in Hties. discriminate Hties.
    + intros E HE. unfold hostname_mode. cbn [sort_Slice runtime].
      apply HE. vm_compute. lia.
Qed.

(** C2, amended.  In every mode and on every runtime, the rows printed are
    the rows of the mode (the matched hosts; one row per key; one row per
    vendor) and their counts never increase from a row to the next.

    Hostname mode ranges over no map: its rows and their order are a
    function of the report, of the filter and of [sort.Slice], the same on
    two runtimes that sort alike; with the sort of Go and at most 13 rows
    they are the same on any two.

    In every mode, two runtimes print the same column of counts: they
    differ at most in the order of rows of equal count.

    With the sort of Go, rows of equal count keep the order of the slice
    before the sort when it holds at most 12 rows: input host order in
    hostname mode, and in port and vendor modes the order in which [range]
    visited the map in that run. *)
Theorem C2_ranked_ties_kept_up_to_12_rows (E : GoRuntime) (wherePorts : string)
    (nmap : NmapRun.t) :
  (hostname_mode E wherePorts nmap ≡ₚ host_table wherePorts nmap
   /\ Ranked HostInfo.CountOpen (hostname_mode E wherePorts nmap)
   /\ (forall E' : GoRuntime,
          map HostInfo.CountOpen (hostname_mode E' wherePorts nmap)
          = map HostInfo.CountOpen (hostname_mode E wherePorts nmap))
   /\ (forall E' : GoRuntime,
          (forall (less : HostInfo.t -> HostInfo.t -> bool) (x : list HostInfo.t),
              sort_Slice E' less x = sort_Slice E less x) ->
          hostname_mode E' wherePorts nmap = hostname_mode E wherePorts nmap)
   /\ (forall E' : GoRuntime,
          SortsAsGo E -> SortsAsGo E' ->
          (length (host_table wherePorts nmap) <= 13)%nat ->
          hostname_mode E' wherePorts nmap = hostname_mode E wherePorts nmap)
   /\ (SortsAsGo E ->
       (length (host_table wherePorts nmap) <= 12)%nat ->
       TiesKeep HostInfo.CountOpen (host_table wherePorts nmap)
                (hostname_mode E wherePorts nmap)))
  /\ (port_mode E nmap ≡ₚ port_table nmap
      /\ Ranked PortInfo.Count (port_mode E nmap)
      /\ (forall E' : GoRuntime,
             map PortInfo.Count (port_mode E' nmap) = map PortInfo.Count (port_mode E nmap))
      /\ (SortsAsGo E ->
          (length (port_table nmap) <= 12)%nat ->
          TiesKeep PortInfo.Count (map snd (map_range E (portMap_of nmap)))
                   (port_mode E nmap)))
  /\ (vendor_mode E nmap ≡ₚ vendor_table nmap
      /\ Ranked VendorInfo.Count (vendor_mode E nmap)
      /\ (forall E' : GoRuntime,
             map VendorInfo.Count (vendor_mode E' nmap)
             = map VendorInfo.Count (vendor_mode E nmap))
      /\ (SortsAsGo E ->
          (length (vendor_table nmap) <= 12)%nat ->
          TiesKeep VendorInfo.Count
                   (map (fun kv => VendorInfo.mk (fst kv) (snd kv))
                        (map_range E (vendorMap_of nmap)))
                   (vendor_mode E nmap))).
Proof.
  split; [|split].
  - split; [apply hostname_mode_perm|].
    split; [apply (sort_Slice_Ranked HostInfo.CountOpen)|].
    split; [intros E'; by apply (ranked_counts_unique HostInfo.CountOpen)|].
    split; [|split].
    + intros E' Hsame. unfold hostname_mode. apply Hsame.
    + intros E' HE HE' Hlen. unfold hostname_mode.
      rewrite <- host_results_spec in Hlen. by rewrite HE, HE'.
    + intros HE Hlen. rewrite <- host_results_spec in Hlen |- *.
      by apply (sort_Slice_ties HostInfo.CountOpen).
  - split; [apply port_mode_perm|].
    split; [apply (sort_Slice_Ranked PortInfo.Count)|].
    split; [intros E'; apply (ranked_counts_unique PortInfo.Count);
            by rewrite !map_range_perm|].
    intros HE Hlen. apply (sort_Slice_ties PortInfo.Count); [done|].
    by rewrite (map_range_perm E), portMap_rows_perm.
  - split; [apply vendor_mode_perm|].
    split; [apply (sort_Slice_Ranked VendorInfo.Count)|].
    split; [intros E'; apply (ranked_counts_unique VendorInfo.Count);
            by rewrite !map_range_perm|].
    intros HE Hlen. apply (sort_Slice_ties VendorInfo.Count); [done|].
    by rewrite (map_range_perm E), vendorMap_rows_perm.
Qed.

Lemma C2_witness :
  SortsAsGo (runtime true)
  /\ (length (port_table report_two_ports) <= 12)%nat
  /\ TiesKeep PortInfo.Count
              (map snd (map_range (runtime true) (portMap_of report_two_ports)))
              (port_mode (runtime true) report_two_ports).
Proof.
  assert (SortsAsGo (runtime true)) as HE by (intros A less x _; reflexivity).
  assert (length (port_table report_two_ports) <= 12)%nat as Hlen by (vm_compute; lia).
  split; [exact HE|]. split; [exact Hlen|].
  exact (proj2 (proj2 (proj2 (proj1 (proj2
           (C2_ranked_ties_kept_up_to_12_rows (runtime true) "" report_two_ports)))))
           HE Hlen).
Defined.

(** ** Counting hosts, counting ports *)

Lemma open_ports_only_open (nmap : NmapRun.t) : open_ports (only_open nmap) = open_ports nmap.
Proof.
  unfold open_ports, all_ports, only_open. cbn [NmapRun.Hosts].
  induction (NmapRun.Hosts nmap) as [|h hosts IH]; [done|].
  cbn [map concat only_open_host Host.Ports]. rewrite !List.filter_app, IH.
  by rewrite filter_filter_same.
Qed.

Lemma listed_open (wherePorts : string) (ports : list Port.t) :
  List.filter (listed wherePorts) (List.filter is_open ports)
  = List.filter (listed wherePorts) ports.
Proof.
  induction ports as [|p ports IH]; [done|]. cbn [List.filter].
  destruct (is_open p) eqn:Hp; cbn [List.filter]; rewrite IH; [done|].
  unfold listed at 2. by rewrite Hp.
Qed.

Lemma exists_listed_open (wherePorts : string) (ports : list Port.t) :
  existsb (listed wherePorts) (List.filter is_open ports)
  = existsb (listed wherePorts) ports.
Proof.
  induction ports as [|p ports IH]; [done|]. cbn [List.filter existsb].
  destruct (is_open p) eqn:Hp; cbn [existsb]; rewrite IH; [done|].
  unfold listed at 2. by rewrite Hp.
Qed.

Lemma host_row_only_open (wherePorts : string) (h : Host.t) :
  host_row wherePorts (only_open_host h) = host_row wherePorts h.
Proof.
  unfold host_row, only_open_host, hostname_of. cbn.
  by rewrite exists_listed_open, listed_open, filter_filter_same.
Qed.

(** X17.  Ports that are not open contribute to no row and to no count, in
    any mode: the rows are those of the report without these ports. *)
Lemma closed_ports_never_contribute (E : GoRuntime) (wherePorts : string) (nmap : NmapRun.t) :
  hostname_mode E wherePorts (only_open nmap) = hostname_mode E wherePorts nmap
  /\ port_mode E (only_open nmap) = port_mode E nmap
  /\ vendor_mode E (only_open nmap) = vendor_mode E nmap.
Proof.
  split; [|split].
  - unfold hostname_mode. rewrite !host_results_spec. f_equal.
    unfold host_table, only_open. cbn [NmapRun.Hosts].
    induction (NmapRun.Hosts nmap) as [|h hosts IH]; [done|].
    cbn [map omap list_omap]. by rewrite host_row_only_open, IH.
  - unfold port_mode. do 3 f_equal. apply map_eq. intros k.
    by rewrite !portMap_of_lookup, open_ports_only_open.
  - unfold vendor_mode. do 3 f_equal. apply map_eq. intros v.
    rewrite !vendorMap_of_lookup. f_equal.
    unfold mac_addresses, only_open. cbn [NmapRun.Hosts]. rewrite map_map. done.
Qed.

(** C1 at a report whose single host lists 80/tcp twice: one host has the
    port open, and port mode prints the count 2. *)
Theorem C1_count_is_per_port_not_per_host (E : GoRuntime) :
  port_mode E report_80_twice = [PortInfo.mk "80/tcp" "http" 2]
  /\ hosts_with_open 80 "tcp" report_80_twice = 1.
Proof. split; [by apply port_mode_one_key|done]. Qed.

(** ** A key is an id and a protocol *)

Lemma digits_no_slash (d : Decimal.uint) : has_slash (NilEmpty.string_of_uint d) = false.
Proof. induction d; simpl; done. Qed.

Lemma Itoa_no_slash (n : Z) : has_slash (Go.Itoa n) = false.
Proof.
  unfold Go.Itoa, NilZero.string_of_int, NilZero.string_of_uint.
  destruct (Z.to_int n) as [d|d]; destruct d; simpl; try done; apply digits_no_slash.
Qed.

Lemma Itoa_inj (a b : Z) : Go.Itoa a = Go.Itoa b -> a = b.
Proof.
  intros Heq. rewrite <- (DecimalZ.of_to a), <- (DecimalZ.of_to b). f_equal.
  assert (forall n, NilZero.int_of_string (Go.Itoa n) = Some (Z.to_int n)) as Hparse.
  { intros n. unfold Go.Itoa. apply NilZero.isi.
    - destruct n; simpl; try done. intros [= H]. by apply DecimalPos.Unsigned.to_uint_nonnil in H.
    - destruct n; simpl; try done. intros [= H]. by apply DecimalPos.Unsigned.to_uint_nonnil in H. }
  pose proof (Hparse a) as Ha. rewrite Heq, Hparse in Ha. by injection Ha.
Qed.

Lemma slash_split (s1 s2 t1 t2 : string) :
  has_slash s1 = false -> has_slash s2 = false ->
  s1 ++ "/" ++ t1 = s2 ++ "/" ++ t2 -> s1 = s2 /\ t1 = t2.
Proof.
  revert s2. induction s1 as [|c s1 IH]; intros [|c2 s2] H1 H2 Heq; simpl in *.
  - by injection Heq.
  - injection Heq as <- _. by rewrite Ascii.eqb_refl in H2.
  - injection Heq as -> _. by rewrite Ascii.eqb_refl in H1.
  - injection Heq as <- Heq. apply orb_false_elim in H1 as [_ H1], H2 as [_ H2].
    destruct (IH s2 H1 H2 Heq) as [-> ->]. done.
Qed.

(** Two ports have the same key exactly when they have the same id and the
    same protocol. *)
Lemma port_key_inj (p q : Port.t) :
  port_key p = port_key q <-> Port.PortID p = Port.PortID q /\ Port.Protocol p = Port.Protocol q.
Proof.
  unfold port_key. split.
  - intros Heq. apply slash_split in Heq as [Hid Hproto]; try apply Itoa_no_slash.
    split; [by apply Itoa_inj|done].
  - by intros [-> ->].
Qed.

Lemma has_key_id_protocol (id : Z) (protocol : string) (q : Port.t) :
  has_key (Go.Itoa id ++ "/" ++ protocol) q
  = Z.eqb (Port.PortID q) id && String.eqb (Port.Protocol q) protocol.
Proof.
  unfold has_key.
  pose proof (port_key_inj q (Port.mk protocol id (Port.State q) (Port.Service q))) as Hinj.
  change (port_key (Port.mk protocol id (Port.State q) (Port.Service q)))
    with (Go.Itoa id ++ "/" ++ protocol) in Hinj. cbn in Hinj.
  destruct (String.eqb_spec (port_key q) (Go.Itoa id ++ "/" ++ protocol)) as [Heq|Hne].
  - apply Hinj in Heq as [-> ->]. by rewrite Z.eqb_refl, String.eqb_refl.
  - destruct (Z.eqb_spec (Port.PortID q) id) as [Hid|]; [|done].
    destruct (String.eqb_spec (Port.Protocol q) protocol) as [Hproto|]; [|done].
    destruct Hne. by apply Hinj.
Qed.

Lemma host_has_open_key (id : Z) (protocol : string) (h : Host.t) :
  host_has_open id protocol h
  = existsb (has_key (Go.Itoa id ++ "/" ++ protocol)) (List.filter is_open (Host.Ports h)).
Proof.
  unfold host_has_open. induction (Host.Ports h) as [|p ports IH]; [done|].
  cbn [existsb List.filter]. rewrite IH.
  destruct (is_open p); cbn [existsb andb orb]; [|done].
  by rewrite has_key_id_protocol.
Qed.

(** Among ports of distinct keys, a key occurs once or not at all. *)
Lemma occurrences_NoDup (k : string) (ports : list Port.t) :
  NoDup (map port_key ports) ->
  occurrences k ports = if existsb (has_key k) ports then 1 else 0.
Proof.
  unfold occurrences. induction ports as [|p ports IH]; [done|].
  cbn [map]. intros [Hp Hports]%NoDup_cons. cbn [List.filter existsb].
  destruct (has_key k p) eqn:Hkp.
  - apply String.eqb_eq in Hkp. subst k. cbn [orb length].
    destruct (existsb (has_key (port_key p)) ports) eqn:Hex.
    + apply existsb_elem in Hex as (q & Hq & Hkey). apply String.eqb_eq in Hkey.
      destruct Hp. rewrite <- Hkey. apply list_elem_of_In, in_map.
      by apply list_elem_of_In.
    + by rewrite (existsb_false_filter _ _ Hex).
  - cbn [orb]. by apply IH.
Qed.

(** X18.  On the reports in which no host lists an open port twice under
    the same id and protocol, the count of a row of port mode is the number
    of hosts that have the port of this id and protocol open. *)
Lemma count_is_hosts_without_duplicates (E : GoRuntime) (nmap : NmapRun.t)
    (r : PortInfo.t) (id : Z) (protocol : string) :
  Forall (fun h => NoDup (map port_key (List.filter is_open (Host.Ports h))))
         (NmapRun.Hosts nmap) ->
  r ∈ port_mode E nmap ->
  PortInfo.Key r = Go.Itoa id ++ "/" ++ protocol ->
  PortInfo.Count r = hosts_with_open id protocol nmap.
Proof.
  intros Hnodup Hr Hkey. apply port_mode_elem in Hr as (k & _ & ->).
  cbn in Hkey. subst k. cbn [port_row PortInfo.Count].
  unfold open_ports, all_ports, hosts_with_open, occurrences.
  induction Hnodup as [|h hosts Hh Hhosts IH]; [done|].
  cbn [map concat List.filter]. rewrite !List.filter_app, length_app, Nat2Z.inj_add, IH.
  fold (occurrences (Go.Itoa id ++ "/" ++ protocol) (List.filter is_open (Host.Ports h))).
  rewrite (occurrences_NoDup _ _ Hh), host_has_open_key.
  destruct (existsb _ (List.filter is_open (Host.Ports h))); cbn [length]; lia.
Qed.

(** * Further properties of the program *)

(** ** Definitions *)

(** Whether a character occurs in a string. *)
Fixpoint contains (c : ascii) (s : string) : bool :=
  match s with
  | EmptyString => false
  | String c' s' => Ascii.eqb c' c || contains c s'
  end.

(** The characters [strconv.Itoa] writes. *)
Definition plain (c : ascii) : bool :=
  existsb (Ascii.eqb c) ["0"; "1"; "2"; "3"; "4"; "5"; "6"; "7"; "8"; "9"; "-"]%char.

Fixpoint all_plain (s : string) : bool :=
  match s with
  | EmptyString => true
  | String c s' => plain c && all_plain s'
  end.

(** The sum of a column of counts. *)
Definition total (counts : list Z) : Z := fold_right Z.add 0 counts.

(** A host reduced to what hostname mode and vendor mode read of its
    addresses and names: the addresses tagged ipv4 or mac, and the first
    host name. *)
Definition slim_host (h : Host.t) : Host.t :=
  Host.mk (List.filter (fun a => is_ipv4 a || is_mac a) (Host.Addresses h))
          (firstn 1 (Host.Hostnames h))
          (Host.Ports h).

Definition slim (nmap : NmapRun.t) : NmapRun.t :=
  NmapRun.mk (map slim_host (NmapRun.Hosts nmap)).

(** The number of fields of a CSV record; a text for the table has none. *)
Definition csv_width (w : Written) : option nat :=
  match w with
  | CsvRecord record => Some (length record)
  | TabText _ => None
  end.

(** ** What [strconv.Itoa] writes *)

Lemma digits_all_plain (d : Decimal.uint) : all_plain (NilEmpty.string_of_uint d) = true.
Proof. induction d; simpl; done. Qed.

Lemma Itoa_all_plain (n : Z) : all_plain (Go.Itoa n) = true.
Proof.
  unfold Go.Itoa, NilZero.string_of_int, NilZero.string_of_uint.
  destruct (Z.to_int n) as [d|d]; destruct d; simpl; try done; apply digits_all_plain.
Qed.

Lemma Itoa_nonempty (n : Z) : Go.Itoa n <> "".
Proof.
  unfold Go.Itoa, NilZero.string_of_int, NilZero.string_of_uint.
  destruct (Z.to_int n) as [d|d]; destruct d; simpl; done.
Qed.

Lemma all_plain_contains (c : ascii) (s : string) :
  plain c = false -> all_plain s = true -> contains c s = false.
Proof.
  intros Hc. induction s as [|c' s IH]; simpl; [done|].
  intros [Hc' Hs]%andb_prop. rewrite (IH Hs), orb_false_r.
  destruct (Ascii.eqb_spec c' c) as [->|]; [congruence|done].
Qed.

Lemma Itoa_no_comma (n : Z) : contains "," (Go.Itoa n) = false.
Proof. apply all_plain_contains; [done|apply Itoa_all_plain]. Qed.

(** ** [strings.TrimSpace], [strings.Split] and [strings.Join] on what
    [strconv.Itoa] writes *)

Definition plain_byte (b : N) : Prop := exists c, b = N_of_ascii c /\ plain c = true.

Lemma plain_byte_no_space (b : N) (rest : list N) :
  plain_byte b ->
  Go.space_prefix (b :: rest) = 0%nat /\ Go.space_suffix (b :: rest) = 0%nat.
Proof.
  intros (c & -> & Hc). unfold plain in Hc.
  apply existsb_exists in Hc as (d & Hd & Heq). apply Ascii.eqb_eq in Heq. subst d.
  simpl in Hd.
  repeat (destruct Hd as [<-|Hd];
          [split; cbv;
           repeat (match goal with
                   | |- context [match ?x with _ => _ end] => destruct x
                   end);
           reflexivity|]).
  done.
Qed.

Lemma trim_with_plain (width : list N -> nat) (bs : list N) :
  (forall b rest, plain_byte b -> width (b :: rest) = 0%nat) ->
  Forall plain_byte bs ->
  Go.trim_with width (length bs) bs = bs.
Proof.
  intros Hwidth Hbs. destruct Hbs as [|b rest Hb Hrest]; [done|].
  simpl. by rewrite (Hwidth b rest Hb).
Qed.

Lemma bytes_of_plain (s : string) : all_plain s = true -> Forall plain_byte (Go.bytes_of s).
Proof.
  induction s as [|c s IH]; simpl; [constructor|].
  intros [Hc Hs]%andb_prop. constructor; [by exists c|by apply IH].
Qed.

Lemma string_of_bytes_of (s : string) : Go.string_of (Go.bytes_of s) = s.
Proof.
  unfold Go.string_of, Go.bytes_of. rewrite map_map.
  rewrite (map_ext _ (fun c => c)) by apply ascii_N_embedding.
  rewrite map_id. apply string_of_list_ascii_of_string.
Qed.

(** A string of digits and minus signs has no white space to trim. *)
Lemma TrimSpace_plain (s : string) : all_plain s = true -> Go.TrimSpace s = s.
Proof.
  intros Hs. unfold Go.TrimSpace. apply bytes_of_plain in Hs.
  rewrite (trim_with_plain Go.space_prefix) by
    (done || intros b rest Hb; apply (plain_byte_no_space b rest Hb)).
  rewrite (trim_with_plain Go.space_suffix).
  - rewrite rev_involutive. apply string_of_bytes_of.
  - intros b rest Hb. apply (plain_byte_no_space b rest Hb).
  - by apply Forall_rev.
Qed.

Lemma Split_no_sep (s : string) (sep : ascii) :
  contains sep s = false -> Go.Split s sep = [s].
Proof.
  induction s as [|c s IH]; simpl; [done|].
  intros [Hc Hs]%orb_false_elim. by rewrite Hc, (IH Hs).
Qed.

Lemma Split_app (s rest : string) (sep : ascii) :
  contains sep s = false ->
  Go.Split (s ++ String sep rest) sep = s :: Go.Split rest sep.
Proof.
  induction s as [|c s IH]; simpl.
  - intros _. by rewrite Ascii.eqb_refl.
  - intros [Hc Hs]%orb_false_elim. by rewrite Hc, (IH Hs).
Qed.

(** Splitting at the commas gives back the elements that were joined with
    commas, when there is an element and no element has a comma. *)
Lemma Split_Join (elems : list string) :
  elems <> [] -> Forall (fun s => contains "," s = false) elems ->
  Go.Split (Go.Join elems ",") ","%char = elems.
Proof.
  intros Hne Hall. induction Hall as [|s elems Hs Helems IH]; [done|].
  unfold Go.Join in *. destruct elems as [|s' elems].
  - simpl. by apply Split_no_sep.
  - change (String.concat "," (s :: s' :: elems))
      with (s ++ String ","%char (String.concat "," (s' :: elems))).
    rewrite (Split_app _ _ _ Hs), IH; done.
Qed.

(** ** Hostname mode: the rows and the filter *)

Lemma existsb_filter_nonempty {A} (f : A -> bool) (l : list A) :
  existsb f l = true -> List.filter f l <> [].
Proof.
  induction l as [|a l IH]; simpl; [done|].
  destruct (f a); simpl; [done|]. exact IH.
Qed.

Lemma omap_length_filter {A B} (f : A -> option B) (l : list A) :
  length (omap f l) = length (List.filter (fun a => bool_decide (is_Some (f a))) l).
Proof.
  induction l as [|a l IH]; [done|]. cbn [omap list_omap List.filter].
  destruct (f a) as [b|]; simpl; by rewrite IH.
Qed.

Lemma omap_length_mono {A B} (f g : A -> option B) (l : list A) :
  (forall a, is_Some (f a) -> is_Some (g a)) ->
  (length (omap f l) <= length (omap g l) <= length l)%nat.
Proof.
  intros Hfg. induction l as [|a l IH]; [simpl; lia|]. cbn [omap list_omap].
  destruct (f a) as [b|] eqn:Hf.
  - destruct (Hfg a) as [b' Hg]; [by rewrite Hf|]. rewrite Hg. simpl. lia.
  - destruct (g a); simpl; lia.
Qed.

Lemma host_row_ids (wherePorts : string) (h : Host.t) (r : HostInfo.t) :
  host_row wherePorts h = Some r ->
  Go.Split (HostInfo.Ports r) ","%char
  = map (fun p => Go.Itoa (Port.PortID p)) (List.filter (listed wherePorts) (Host.Ports h))
  /\ List.filter (listed wherePorts) (Host.Ports h) <> [].
Proof.
  intros Hrow. apply host_row_Some in Hrow as (Hex & _ & _ & _ & _ & _ & Hports).
  apply existsb_filter_nonempty in Hex. split; [|done].
  rewrite Hports. apply Split_Join.
  - by destruct (List.filter (listed wherePorts) (Host.Ports h)).
  - apply Forall_forall. intros s Hs.
    apply list_elem_of_In, in_map_iff in Hs as (n & <- & _). apply Itoa_no_comma.
Qed.

Lemma listed_no_filter (p : Port.t) : listed "" p = is_open p.
Proof. unfold listed, matches. cbn. apply andb_true_r. Qed.

Lemma existsb_impl {A} (f g : A -> bool) (l : list A) :
  (forall a, f a = true -> g a = true) -> existsb f l = true -> existsb g l = true.
Proof.
  intros Hfg. rewrite !existsb_exists. intros (a & Ha & Hf). exists a. auto.
Qed.

Lemma existsb_same {A} (f g : A -> bool) (l : list A) :
  (forall a, f a = g a) -> existsb f l = existsb g l.
Proof. intros Hfg. induction l as [|a l IH]; simpl; [done|]. by rewrite Hfg, IH. Qed.

Lemma requested_of_row (wherePorts : string) (h : Host.t) (r : HostInfo.t) :
  host_row wherePorts h = Some r ->
  requested (HostInfo.Ports r)
  = map (fun p => Go.Itoa (Port.PortID p)) (List.filter (listed wherePorts) (Host.Ports h)).
Proof.
  intros Hrow. unfold requested. rewrite (proj1 (host_row_ids _ _ _ Hrow)), map_map.
  apply map_ext. intros p. apply TrimSpace_plain, Itoa_all_plain.
Qed.

(** X1.  Hostname mode, any filter: the [Ports] field of every row printed
    is not empty and splits at its commas into the decimal ids of the
    listed ports of the row's host, of which there is at least one and at
    most [CountOpen]. *)
Theorem X1_ports_field_splits_into_listed_ids (E : GoRuntime) (wherePorts : string)
    (nmap : NmapRun.t) :
  Forall (fun r =>
            exists h, h ∈ NmapRun.Hosts nmap
              /\ Go.Split (HostInfo.Ports r) ","%char
                 = map (fun p => Go.Itoa (Port.PortID p))
                       (List.filter (listed wherePorts) (Host.Ports h))
              /\ HostInfo.Ports r <> ""
              /\ 1 <= Z.of_nat (length (Go.Split (HostInfo.Ports r) ","%char))
                 <= HostInfo.CountOpen r)
         (hostname_mode E wherePorts nmap).
Proof.
  apply Forall_forall. intros r Hr.
  apply hostname_mode_elem in Hr as (h & Hh & Hrow). exists h. split; [done|].
  destruct (host_row_ids _ _ _ Hrow) as [Hsplit Hne].
  apply host_row_Some in Hrow as (_ & _ & _ & _ & _ & Hcount & _).
  split; [done|]. split.
  - intros Hempty. rewrite Hempty in Hsplit. cbn in Hsplit.
    destruct (List.filter (listed wherePorts) (Host.Ports h)) as [|p ps]; [done|].
    injection Hsplit as Hp _. symmetry in Hp. by apply Itoa_nonempty in Hp.
  - rewrite Hsplit, length_map, Hcount.
    pose proof (listed_le_open wherePorts (Host.Ports h)).
    destruct (List.filter (listed wherePorts) (Host.Ports h)); [done|]. simpl in *. lia.
Qed.

(** X2.  Hostname mode without filter: every row lists all the open ports
    of its host, so its [Ports] field has [CountOpen] ids, and there is one
    row per host that has an open port. *)
Theorem X2_no_filter_lists_every_open_port (E : GoRuntime) (nmap : NmapRun.t) :
  Forall (fun r => Z.of_nat (length (Go.Split (HostInfo.Ports r) ","%char))
                   = HostInfo.CountOpen r)
         (hostname_mode E "" nmap)
  /\ length (hostname_mode E "" nmap)
     = length (List.filter (fun h => existsb is_open (Host.Ports h)) (NmapRun.Hosts nmap)).
Proof.
  split.
  - apply Forall_forall. intros r Hr.
    apply hostname_mode_elem in Hr as (h & Hh & Hrow).
    destruct (host_row_ids _ _ _ Hrow) as [Hsplit _].
    apply host_row_Some in Hrow as (_ & _ & _ & _ & _ & Hcount & _).
    rewrite Hsplit, length_map, Hcount. do 2 f_equal.
    apply filter_ext. apply listed_no_filter.
  - rewrite (Permutation_length (hostname_mode_perm E "" nmap)).
    unfold host_table. rewrite omap_length_filter. f_equal. apply filter_ext.
    intros h. unfold host_row.
    rewrite (existsb_same _ _ _ listed_no_filter).
    by destruct (existsb is_open (Host.Ports h)).
Qed.

Lemma host_row_without_filter (wherePorts : string) (h : Host.t) (r : HostInfo.t) :
  host_row wherePorts h = Some r ->
  exists r', host_row "" h = Some r'
    /\ HostInfo.Hostname r' = HostInfo.Hostname r /\ HostInfo.IPv4 r' = HostInfo.IPv4 r
    /\ HostInfo.MAC r' = HostInfo.MAC r /\ HostInfo.Vendor r' = HostInfo.Vendor r
    /\ HostInfo.CountOpen r' = HostInfo.CountOpen r.
Proof.
  unfold host_row. destruct (existsb (listed wherePorts) (Host.Ports h)) eqn:Hex; [|done].
  intros [= <-].
  assert (existsb (listed "") (Host.Ports h) = true) as ->.
  { apply (existsb_impl (listed wherePorts)); [|done].
    intros p Hp. rewrite listed_no_filter. unfold listed in Hp.
    by apply andb_prop in Hp as [? _]. }
  eexists. split; [done|]. done.
Qed.

(** X3.  A filter only removes rows and ids: every row printed with a
    filter has a row printed without filter with the same host name,
    addresses, vendor and [CountOpen]; there are no more rows with the
    filter than without, and never more rows than hosts. *)
Theorem X3_filter_only_removes (E : GoRuntime) (wherePorts : string) (nmap : NmapRun.t) :
  Forall (fun r =>
            exists r', r' ∈ hostname_mode E "" nmap
              /\ HostInfo.Hostname r' = HostInfo.Hostname r
              /\ HostInfo.IPv4 r' = HostInfo.IPv4 r
              /\ HostInfo.MAC r' = HostInfo.MAC r
              /\ HostInfo.Vendor r' = HostInfo.Vendor r
              /\ HostInfo.CountOpen r' = HostInfo.CountOpen r)
         (hostname_mode E wherePorts nmap)
  /\ (length (hostname_mode E wherePorts nmap) <= length (hostname_mode E "" nmap)
      <= length (NmapRun.Hosts nmap))%nat.
Proof.
  split.
  - apply Forall_forall. intros r Hr.
    apply hostname_mode_elem in Hr as (h & Hh & Hrow).
    apply host_row_without_filter in Hrow as (r' & Hrow' & Hfields).
    exists r'. split; [|done]. apply hostname_mode_elem. by exists h.
  - rewrite !(Permutation_length (hostname_mode_perm E _ nmap)).
    apply omap_length_mono. intros h [r Hrow].
    apply host_row_without_filter in Hrow as (r' & Hrow' & _). by exists r'.
Qed.

Lemma host_table_ext (w1 w2 : string) (nmap : NmapRun.t) :
  (forall h p, h ∈ NmapRun.Hosts nmap -> p ∈ Host.Ports h -> listed w1 p = listed w2 p) ->
  host_table w1 nmap = host_table w2 nmap.
Proof.
  intros Hsame. unfold host_table.
  apply list_omap_ext, Forall_Forall2_diag, Forall_forall.
  intros h Hh. apply host_row_ext. intros p Hp. by apply (Hsame h).
Qed.

Lemma hostname_mode_ext (E : GoRuntime) (w1 w2 : string) (nmap : NmapRun.t) :
  host_table w1 nmap = host_table w2 nmap ->
  hostname_mode E w1 nmap = hostname_mode E w2 nmap.
Proof. intros Htable. unfold hostname_mode. by rewrite !host_results_spec, Htable. Qed.

Lemma existsb_requested (k : string) (w1 w2 : string) :
  (forall k, k ∈ requested w1 <-> k ∈ requested w2) ->
  existsb (String.eqb k) (requested w1) = existsb (String.eqb k) (requested w2).
Proof.
  intros Hsame. apply eq_true_iff_eq. rewrite !existsb_eqb_elem. apply Hsame.
Qed.

(** X4.  The filter is a set: two [-whereport] strings that are both empty
    or both not, and whose comma-separated fields give, once trimmed, the
    same set of strings, print the same rows; the order of the fields, their
    repetition and the white space around them do not matter. *)
Theorem X4_filter_is_a_set (E : GoRuntime) (w1 w2 : string) (nmap : NmapRun.t) :
  no_filter w1 = no_filter w2 ->
  (forall k, k ∈ requested w1 <-> k ∈ requested w2) ->
  hostname_mode E w1 nmap = hostname_mode E w2 nmap.
Proof.
  intros Hempty Hsame. apply hostname_mode_ext, host_table_ext.
  intros h p _ _. unfold listed, matches.
  by rewrite Hempty, (existsb_requested _ w1 w2 Hsame).
Qed.

Lemma X4_witness :
  no_filter "22,80" = no_filter " 80 ,22,22"
  /\ (forall k, k ∈ requested "22,80" <-> k ∈ requested " 80 ,22,22")
  /\ hostname_mode (runtime false) "22,80" report_AB
     = hostname_mode (runtime false) " 80 ,22,22" report_AB.
Proof.
  assert (forall k, k ∈ requested "22,80" <-> k ∈ requested " 80 ,22,22") as Hsame.
  { intros k. change (requested "22,80") with ["22"; "80"].
    change (requested " 80 ,22,22") with ["80"; "22"; "22"].
    rewrite !elem_of_cons, !elem_of_nil. tauto. }
  split; [reflexivity|]. split; [exact Hsame|].
  exact (X4_filter_is_a_set (runtime false) "22,80" " 80 ,22,22" report_AB eq_refl Hsame).
Defined.

Lemma omap_all_None {A B} (f : A -> option B) (l : list A) :
  (forall a, a ∈ l -> f a = None) -> omap f l = [].
Proof.
  induction l as [|a l IH]; intros Hnone; [done|]. cbn [omap list_omap].
  rewrite (Hnone a) by apply list_elem_of_here. apply IH.
  intros b Hb. by apply Hnone, list_elem_of_further.
Qed.

Lemma existsb_all_false {A} (f : A -> bool) (l : list A) :
  (forall a, a ∈ l -> f a = false) -> existsb f l = false.
Proof.
  induction l as [|a l IH]; intros Hnone; [done|]. simpl.
  rewrite (Hnone a) by apply list_elem_of_here. apply IH.
  intros b Hb. by apply Hnone, list_elem_of_further.
Qed.

Lemma hostname_mode_no_match (E : GoRuntime) (wherePorts : string) (nmap : NmapRun.t) :
  no_filter wherePorts = false ->
  (forall p, p ∈ open_ports nmap ->
             index_bool (portSet wherePorts) (Go.Itoa (Port.PortID p)) = false) ->
  hostname_mode E wherePorts nmap = [].
Proof.
  intros Hfilter Hnone. apply Permutation_nil_r. rewrite (hostname_mode_perm E).
  unfold host_table.
  rewrite omap_all_None; [done|]. intros h Hh. unfold host_row.
  rewrite existsb_all_false; [done|]. intros p Hp. unfold listed.
  destruct (is_open p) eqn:Hopen; [|done]. cbn [andb].
  rewrite <- port_step_matches, Hfilter. cbn [orb].
  apply Hnone. by eapply port_of_host_open.
Qed.

(** X5.  With a filter that holds the id of no open port of the report,
    hostname mode prints no row. *)
Theorem X5_filter_without_match_prints_no_row (E : GoRuntime) (wherePorts : string)
    (nmap : NmapRun.t) :
  no_filter wherePorts = false ->
  Forall (fun p => index_bool (portSet wherePorts) (Go.Itoa (Port.PortID p)) = false)
         (open_ports nmap) ->
  hostname_mode E wherePorts nmap = [].
Proof.
  intros Hfilter Hnone. apply hostname_mode_no_match; [done|].
  by apply Forall_forall.
Qed.

Lemma X5_witness :
  no_filter "443, 8080" = false
  /\ Forall (fun p => index_bool (portSet "443, 8080") (Go.Itoa (Port.PortID p)) = false)
            (open_ports report_AB)
  /\ hostname_mode (runtime false) "443, 8080" report_AB = [].
Proof.
  assert (Forall (fun p => index_bool (portSet "443, 8080") (Go.Itoa (Port.PortID p)) = false)
                 (open_ports report_AB)) as Hnone.
  { repeat constructor. }
  split; [reflexivity|]. split; [exact Hnone|].
  exact (X5_filter_without_match_prints_no_row (runtime false) "443, 8080" report_AB
           eq_refl Hnone).
Defined.

(** X6.  A [-whereport] string that is not empty but whose fields are all
    blank (commas and white space only) is a filter that no port passes:
    hostname mode prints no row, whatever the report. *)
Theorem X6_blank_filter_prints_no_row (E : GoRuntime) (wherePorts : string)
    (nmap : NmapRun.t) :
  no_filter wherePorts = false ->
  Forall (fun field => Go.TrimSpace field = "") (Go.Split wherePorts ","%char) ->
  hostname_mode E wherePorts nmap = [].
Proof.
  intros Hfilter Hblank. apply hostname_mode_no_match; [done|].
  intros p _. rewrite portSet_index. apply existsb_all_false.
  intros k Hk. unfold requested in Hk.
  apply list_elem_of_In, in_map_iff in Hk as (field & <- & Hfield).
  rewrite Forall_forall in Hblank. rewrite (Hblank field) by by apply list_elem_of_In.
  apply String.eqb_neq, Itoa_nonempty.
Qed.

Lemma X6_witness :
  no_filter " , ," = false
  /\ Forall (fun field => Go.TrimSpace field = "") (Go.Split " , ," ","%char)
  /\ hostname_mode (runtime false) " , ," report_AB = [].
Proof.
  assert (Forall (fun field => Go.TrimSpace field = "") (Go.Split " , ," ","%char)) as Hblank.
  { repeat constructor. }
  split; [reflexivity|]. split; [exact Hblank|].
  exact (X6_blank_filter_prints_no_row (runtime false) " , ," report_AB eq_refl Hblank).
Defined.

(** X7.  The [Ports] field of a row printed without filter is itself a
    filter that selects the row's host: given back as [-whereport] on the
    same report, it prints that very row again. *)
Theorem X7_ports_field_selects_its_host (E : GoRuntime) (nmap : NmapRun.t) :
  Forall (fun r => r ∈ hostname_mode E (HostInfo.Ports r) nmap) (hostname_mode E "" nmap).
Proof.
  apply Forall_forall. intros r Hr.
  apply hostname_mode_elem in Hr as (h & Hh & Hrow).
  apply hostname_mode_elem. exists h. split; [done|].
  rewrite <- Hrow. apply host_row_ext. intros p Hp.
  unfold listed at 1. rewrite listed_no_filter.
  destruct (is_open p) eqn:Hopen; [|done]. cbn [andb].
  unfold matches. rewrite (requested_of_row _ _ _ Hrow).
  apply orb_true_intro. right. apply existsb_eqb_elem.
  apply list_elem_of_In, in_map_iff. exists p. split; [done|].
  apply filter_In. split; [by apply list_elem_of_In|]. by rewrite listed_no_filter.
Qed.

(** ** Counts and their sum *)

Lemma total_perm (l l' : list Z) : l ≡ₚ l' -> total l = total l'.
Proof. induction 1; simpl; lia. Qed.

Lemma total_ge_length (l : list Z) : Forall (fun c => 1 <= c) l -> Z.of_nat (length l) <= total l.
Proof. induction 1; simpl; lia. Qed.

Section Tally.
Context {A : Type} (key : A -> string).

Definition tally (l : list A) (k : string) : Z :=
  Z.of_nat (length (List.filter (fun a => String.eqb (key a) k) l)).

Lemma tally_cons (a : A) (l : list A) (k : string) :
  tally (a :: l) k = (if String.eqb (key a) k then 1 else 0) + tally l k.
Proof. unfold tally. simpl. destruct (String.eqb (key a) k); simpl; lia. Qed.

Lemma total_indicator (k0 : string) (ks : list string) :
  NoDup ks ->
  total (map (fun k => if String.eqb k0 k then 1 else 0) ks) = if bool_decide (k0 ∈ ks) then 1 else 0.
Proof.
  induction 1 as [|k ks Hk Hks IH]; [done|]. cbn [map total fold_right].
  fold (total (map (fun k => if String.eqb k0 k then 1 else 0) ks)). rewrite IH.
  destruct (String.eqb_spec k0 k) as [->|Hne].
  - rewrite (bool_decide_eq_true_2 (k ∈ k :: ks)) by apply list_elem_of_here.
    by rewrite (bool_decide_eq_false_2 (k ∈ ks)).
  - destruct (bool_decide (k0 ∈ ks)) eqn:Hin.
    + apply bool_decide_eq_true in Hin.
      by rewrite (bool_decide_eq_true_2 (k0 ∈ k :: ks)) by by apply list_elem_of_further.
    + apply bool_decide_eq_false in Hin.
      rewrite (bool_decide_eq_false_2 (k0 ∈ k :: ks)); [done|].
      intros [?|?]%elem_of_cons; done.
Qed.

(** Counting a list under each of its keys counts every element once. *)
Lemma total_tally (ks : list string) (l : list A) :
  NoDup ks -> (forall a, a ∈ l -> key a ∈ ks) ->
  total (map (tally l) ks) = Z.of_nat (length l).
Proof.
  intros Hks. induction l as [|a l IH]; intros Hkeys.
  - clear Hkeys. induction ks as [|k ks IHk]; [done|].
    apply NoDup_cons in Hks as [_ Hks]. simpl. by rewrite IHk.
  - rewrite (map_ext _ (fun k => (if String.eqb (key a) k then 1 else 0) + tally l k))
      by apply tally_cons.
    assert (forall (f g : string -> Z) (xs : list string),
               total (map (fun k => f k + g k) xs) = total (map f xs) + total (map g xs))
      as Hsplit.
    { intros f g xs. induction xs as [|x xs IHx]; simpl; [done|].
      fold (total (map (fun k => f k + g k) xs)) (total (map f xs)) (total (map g xs)).
      lia. }
    rewrite Hsplit, (total_indicator _ _ Hks), IH.
    + rewrite bool_decide_eq_true_2 by apply Hkeys, list_elem_of_here.
      cbn [length]. lia.
    + intros b Hb. by apply Hkeys, list_elem_of_further.
Qed.

Lemma tally_positive (l : list A) (a : A) : a ∈ l -> 1 <= tally l (key a).
Proof.
  intros Ha. unfold tally.
  assert (a ∈ List.filter (fun b => String.eqb (key b) (key a)) l) as Hin.
  { apply list_elem_of_In, filter_In. split; [by apply list_elem_of_In|].
    apply String.eqb_refl. }
  destruct (List.filter _ l); [by apply elem_of_nil in Hin|]. simpl. lia.
Qed.

Lemma tally_perm (l l' : list A) (k : string) : l ≡ₚ l' -> tally l k = tally l' k.
Proof.
  intros Hperm. unfold tally. f_equal. apply Permutation_length.
  induction Hperm as [|a l1 l2 _ IH|a b l1|l1 l2 l3 _ IH1 _ IH2]; simpl.
  - done.
  - destruct (String.eqb (key a) k); [by constructor|done].
  - destruct (String.eqb (key a) k), (String.eqb (key b) k); try done. apply perm_swap.
  - by etrans.
Qed.

End Tally.

(** ** Port mode and vendor mode: totals and what the rows depend on *)

Lemma port_table_counts (nmap : NmapRun.t) :
  map PortInfo.Count (port_table nmap)
  = map (tally port_key (open_ports nmap)) (first_seen (map port_key (open_ports nmap))).
Proof. unfold port_table. by rewrite map_map. Qed.

Lemma vendor_table_counts (nmap : NmapRun.t) :
  map VendorInfo.Count (vendor_table nmap)
  = map (tally Address.Vendor (mac_addresses nmap))
        (first_seen (map Address.Vendor (mac_addresses nmap))).
Proof. unfold vendor_table. by rewrite map_map. Qed.

Lemma first_seen_covers {A} (key : A -> string) (l : list A) (a : A) :
  a ∈ l -> key a ∈ first_seen (map key l).
Proof.
  intros Ha. apply first_seen_elem, list_elem_of_In, in_map. by apply list_elem_of_In.
Qed.

Lemma port_mode_total (E : GoRuntime) (nmap : NmapRun.t) :
  total (map PortInfo.Count (port_mode E nmap)) = Z.of_nat (length (open_ports nmap)).
Proof.
  rewrite (total_perm _ (map PortInfo.Count (port_table nmap)))
    by apply Permutation_map, port_mode_perm.
  rewrite port_table_counts. apply total_tally; [apply first_seen_NoDup|].
  intros p Hp. by apply first_seen_covers.
Qed.

(** X8.  Port mode: every count printed is at least 1, the counts add up to
    the number of open ports of the report (all hosts together), and there
    are at most that many rows. *)
Theorem X8_port_counts_add_up (E : GoRuntime) (nmap : NmapRun.t) :
  total (map PortInfo.Count (port_mode E nmap)) = Z.of_nat (length (open_ports nmap))
  /\ Forall (fun r => 1 <= PortInfo.Count r) (port_mode E nmap)
  /\ (length (port_mode E nmap) <= length (open_ports nmap))%nat.
Proof.
  pose proof (port_mode_total E nmap) as Htotal.
  assert (Forall (fun r => 1 <= PortInfo.Count r) (port_mode E nmap)) as Hpos.
  { apply Forall_forall. intros r Hr. apply port_mode_elem in Hr as (k & Hk & ->).
    apply list_elem_of_In, in_map_iff in Hk as (p & <- & Hp).
    apply (tally_positive port_key), list_elem_of_In, Hp. }
  split; [done|]. split; [done|].
  apply Nat2Z.inj_le. rewrite <- Htotal, <- (length_map PortInfo.Count).
  apply total_ge_length. by apply Forall_map.
Qed.

(** X9.  Vendor mode: every count printed is at least 1, the counts add up
    to the number of addresses tagged mac of the report, and there are at
    most that many rows. *)
Theorem X9_vendor_counts_add_up (E : GoRuntime) (nmap : NmapRun.t) :
  total (map VendorInfo.Count (vendor_mode E nmap)) = Z.of_nat (length (mac_addresses nmap))
  /\ Forall (fun r => 1 <= VendorInfo.Count r) (vendor_mode E nmap)
  /\ (length (vendor_mode E nmap) <= length (mac_addresses nmap))%nat.
Proof.
  assert (total (map VendorInfo.Count (vendor_mode E nmap))
          = Z.of_nat (length (mac_addresses nmap))) as Htotal.
  { rewrite (total_perm _ (map VendorInfo.Count (vendor_table nmap)))
      by apply Permutation_map, vendor_mode_perm.
    rewrite vendor_table_counts. apply total_tally; [apply first_seen_NoDup|].
    intros a Ha. by apply first_seen_covers. }
  assert (Forall (fun r => 1 <= VendorInfo.Count r) (vendor_mode E nmap)) as Hpos.
  { apply Forall_forall. intros r Hr. rewrite (vendor_mode_perm E) in Hr.
    unfold vendor_table in Hr.
    apply list_elem_of_In, in_map_iff in Hr as (v & <- & Hv).
    apply list_elem_of_In, first_seen_elem, list_elem_of_In, in_map_iff in Hv as (a & <- & Ha).
    apply (tally_positive Address.Vendor), list_elem_of_In, Ha. }
  split; [done|]. split; [done|].
  apply Nat2Z.inj_le. rewrite <- Htotal, <- (length_map VendorInfo.Count).
  apply total_ge_length. by apply Forall_map.
Qed.

(** X10.  Port mode reads nothing but the sequence of the open ports: two
    reports with the same open ports in the same order print the same
    rows, however the ports are spread over hosts, and whatever the
    addresses, the host names and the ports that are not open. *)
Theorem X10_port_mode_reads_open_ports_only (E : GoRuntime) (nmap1 nmap2 : NmapRun.t) :
  open_ports nmap1 = open_ports nmap2 -> port_mode E nmap1 = port_mode E nmap2.
Proof.
  intros Hsame. unfold port_mode. do 3 f_equal. apply map_eq. intros k.
  by rewrite !portMap_of_lookup, Hsame.
Qed.

Lemma X10_witness :
  open_ports report_80_thrice
  = open_ports (NmapRun.mk [Host.mk [Address.mk "10.0.0.9" "ipv4" ""] [Hostname.mk "web"]
                              [a_port 80 "tcp" "open" "http";
                               a_port 80 "tcp" "open" "http-alt";
                               a_port 80 "tcp" "open" "www"]])
  /\ port_mode (runtime true) report_80_thrice
     = port_mode (runtime true)
         (NmapRun.mk [Host.mk [Address.mk "10.0.0.9" "ipv4" ""] [Hostname.mk "web"]
                        [a_port 80 "tcp" "open" "http";
                         a_port 80 "tcp" "open" "http-alt";
                         a_port 80 "tcp" "open" "www"]]).
Proof.
  split; [reflexivity|].
  exact (X10_port_mode_reads_open_ports_only (runtime true) report_80_thrice _ eq_refl).
Defined.

Lemma first_seen_perm (keys keys' : list string) :
  keys ≡ₚ keys' -> first_seen keys ≡ₚ first_seen keys'.
Proof.
  intros Hperm. apply NoDup_Permutation; try apply first_seen_NoDup.
  intros k. by rewrite !first_seen_elem, Hperm.
Qed.

(** X11.  Port mode: the keys printed and their counts do not depend on
    the order of the hosts or of the ports: two reports whose open ports
    are the same up to order print the same pairs of key and count (the
    service name, taken from the first occurrence, may differ). *)
Theorem X11_port_counts_ignore_order (E : GoRuntime) (nmap1 nmap2 : NmapRun.t) :
  open_ports nmap1 ≡ₚ open_ports nmap2 ->
  map (fun r => (PortInfo.Key r, PortInfo.Count r)) (port_mode E nmap1)
  ≡ₚ map (fun r => (PortInfo.Key r, PortInfo.Count r)) (port_mode E nmap2).
Proof.
  intros Hperm. rewrite !(port_mode_perm E). unfold port_table. rewrite !map_map.
  cbn [port_row PortInfo.Key PortInfo.Count].
  rewrite (map_ext (fun k => (k, occurrences k (open_ports nmap1)))
                   (fun k => (k, occurrences k (open_ports nmap2))))
    by (intros k; f_equal; apply (tally_perm port_key), Hperm).
  apply Permutation_map, first_seen_perm, Permutation_map, Hperm.
Qed.

Lemma X11_witness :
  open_ports report_AB ≡ₚ open_ports (NmapRun.mk [host_B; host_A])
  /\ map (fun r => (PortInfo.Key r, PortInfo.Count r)) (port_mode (runtime false) report_AB)
     ≡ₚ map (fun r => (PortInfo.Key r, PortInfo.Count r))
            (port_mode (runtime false) (NmapRun.mk [host_B; host_A])).
Proof.
  assert (open_ports report_AB ≡ₚ open_ports (NmapRun.mk [host_B; host_A])) as Hperm.
  { change (open_ports report_AB)
      with ([a_port 22 "tcp" "open" "ssh"; a_port 80 "tcp" "open" "http"]
              ++ [a_port 22 "tcp" "open" "ssh"])%list.
    apply Permutation_app_comm. }
  split; [exact Hperm|].
  exact (X11_port_counts_ignore_order (runtime false) report_AB _ Hperm).
Defined.

(** X12.  Vendor mode does not depend on the order of the hosts or of the
    addresses, and reads nothing but the addresses tagged mac: on two
    reports whose mac addresses are the same up to order, any two runs
    print the same rows up to their order, and the same column of counts:
    only rows of equal count can come in another order. *)
Theorem X12_vendor_mode_ignores_order (E1 E2 : GoRuntime) (nmap1 nmap2 : NmapRun.t) :
  mac_addresses nmap1 ≡ₚ mac_addresses nmap2 ->
  vendor_mode E1 nmap1 ≡ₚ vendor_mode E2 nmap2
  /\ map VendorInfo.Count (vendor_mode E1 nmap1)
     = map VendorInfo.Count (vendor_mode E2 nmap2).
Proof.
  intros Hperm.
  assert (vendor_table nmap1 ≡ₚ vendor_table nmap2) as Htable.
  { unfold vendor_table.
    rewrite (map_ext (fun v => VendorInfo.mk v (devices v (mac_addresses nmap1)))
                     (fun v => VendorInfo.mk v (devices v (mac_addresses nmap2))))
      by (intros v; f_equal; apply (tally_perm Address.Vendor), Hperm).
    apply Permutation_map, first_seen_perm, Permutation_map, Hperm. }
  split.
  - by rewrite !vendor_mode_perm.
  - unfold vendor_mode. apply (ranked_counts_unique VendorInfo.Count).
    by rewrite !map_range_perm, !vendorMap_rows_perm.
Qed.

Lemma X12_witness :
  mac_addresses report_two_vendors
  ≡ₚ mac_addresses (NmapRun.mk [Host.mk [Address.mk "BB:BB" "mac" "Cisco";
                                          Address.mk "AA:AA" "mac" "Intel"] [] []])
  /\ vendor_mode (runtime false) report_two_vendors
     ≡ₚ vendor_mode (runtime true)
          (NmapRun.mk [Host.mk [Address.mk "BB:BB" "mac" "Cisco";
                                Address.mk "AA:AA" "mac" "Intel"] [] []]).
Proof.
  assert (mac_addresses report_two_vendors
          ≡ₚ mac_addresses (NmapRun.mk [Host.mk [Address.mk "BB:BB" "mac" "Cisco";
                                                  Address.mk "AA:AA" "mac" "Intel"] [] []]))
    as Hperm.
  { apply perm_swap. }
  split; [exact Hperm|].
  exact (proj1 (X12_vendor_mode_ignores_order (runtime false) (runtime true)
                  report_two_vendors _ Hperm)).
Defined.

(** X13.  The key of port mode, the decimal id, a slash and the protocol,
    identifies the pair: two ports get the same key exactly when they have
    the same id and the same protocol, whatever characters the protocol
    holds. *)
Theorem X13_key_identifies_id_and_protocol (p q : Port.t) :
  port_key p = port_key q
  <-> Port.PortID p = Port.PortID q /\ Port.Protocol p = Port.Protocol q.
Proof. apply port_key_inj. Qed.

(** ** What no mode reads *)

Lemma find_filter_weaker {A} (tagged keep : A -> bool) (l : list A) :
  (forall a, tagged a = true -> keep a = true) ->
  List.find tagged (List.filter keep l) = List.find tagged l.
Proof.
  intros Hweaker. induction l as [|a l IH]; [done|]. simpl.
  destruct (keep a) eqn:Hkeep; simpl.
  - by rewrite IH.
  - destruct (tagged a) eqn:Htagged; [|done].
    apply Hweaker in Htagged. congruence.
Qed.

Lemma filter_filter_weaker {A} (tagged keep : A -> bool) (l : list A) :
  (forall a, tagged a = true -> keep a = true) ->
  List.filter tagged (List.filter keep l) = List.filter tagged l.
Proof.
  intros Hweaker. induction l as [|a l IH]; [done|]. simpl.
  destruct (keep a) eqn:Hkeep; simpl.
  - by rewrite IH.
  - destruct (tagged a) eqn:Htagged; [|done].
    apply Hweaker in Htagged. congruence.
Qed.

Lemma last_tagged_slim (tagged : Address.t -> bool) (addrs : list Address.t) :
  (forall a, tagged a = true -> is_ipv4 a || is_mac a = true) ->
  last_tagged tagged (List.filter (fun a => is_ipv4 a || is_mac a) addrs)
  = last_tagged tagged addrs.
Proof.
  intros Hweaker. unfold last_tagged. rewrite <- filter_rev.
  by apply find_filter_weaker.
Qed.

Lemma host_row_slim (wherePorts : string) (h : Host.t) :
  host_row wherePorts (slim_host h) = host_row wherePorts h.
Proof.
  unfold host_row, slim_host, hostname_of. cbn [Host.Ports Host.Addresses Host.Hostnames].
  rewrite !last_tagged_slim.
  - by destruct (Host.Hostnames h).
  - intros a Ha. by rewrite Ha, orb_true_r.
  - intros a Ha. by rewrite Ha.
Qed.

Lemma mac_addresses_slim (nmap : NmapRun.t) : mac_addresses (slim nmap) = mac_addresses nmap.
Proof.
  unfold mac_addresses, slim. cbn [NmapRun.Hosts].
  induction (NmapRun.Hosts nmap) as [|h hosts IH]; [done|].
  cbn [map concat slim_host Host.Addresses]. rewrite !List.filter_app, IH. f_equal.
  apply filter_filter_weaker. intros a Ha. by rewrite Ha, orb_true_r.
Qed.

(** X14.  No mode reads an address that is tagged neither ipv4 nor mac (an
    ipv6 address for one), nor a host name after the first of a host: the
    rows of the three modes are those of the report without them. *)
Theorem X14_other_addresses_and_names_are_not_read (E : GoRuntime) (wherePorts : string)
    (nmap : NmapRun.t) :
  hostname_mode E wherePorts (slim nmap) = hostname_mode E wherePorts nmap
  /\ port_mode E (slim nmap) = port_mode E nmap
  /\ vendor_mode E (slim nmap) = vendor_mode E nmap.
Proof.
  split; [|split].
  - unfold hostname_mode. rewrite !host_results_spec. f_equal.
    unfold host_table, slim. cbn [NmapRun.Hosts].
    induction (NmapRun.Hosts nmap) as [|h hosts IH]; [done|].
    cbn [map omap list_omap]. by rewrite host_row_slim, IH.
  - unfold port_mode. do 3 f_equal. apply map_eq. intros k.
    rewrite !portMap_of_lookup. f_equal.
    unfold open_ports, all_ports, slim. cbn [NmapRun.Hosts]. by rewrite map_map.
  - unfold vendor_mode. do 3 f_equal. apply map_eq. intros v.
    by rewrite !vendorMap_of_lookup, mac_addresses_slim.
Qed.

(** ** Output *)

Lemma emit_width (header dashes : list string) (rows : list (list string)) :
  Forall (fun row => length row = length header) rows ->
  Forall (fun w => csv_width w = Some (length header)) (emit true header dashes rows).
Proof.
  intros Hrows. unfold emit. constructor; [done|].
  apply Forall_map. eapply Forall_impl; [exact Hrows|].
  intros row Hrow. simpl. by rewrite Hrow.
Qed.

(** X15.  With [-csv], everything written is a CSV record and all the
    records of a run have the same number of fields, the header's. *)
Theorem X15_csv_output_is_rectangular (E : GoRuntime) (flags : Flags) (nmap : NmapRun.t)
    (out : list Written) :
  outputCSV flags = true ->
  main E flags (Parsed nmap) = Return out ->
  exists n : nat, Forall (fun w => csv_width w = Some n) out.
Proof.
  intros Hcsv Hmain. unfold main in Hmain.
  destruct (showHostnames flags); [|destruct (showPorts flags); [|destruct (showVendors flags)]];
    injection Hmain as <-.
  - exists 6%nat. unfold print_hosts. rewrite Hcsv.
    apply (emit_width ["Hostname"; "IPv4"; "MAC"; "Vendor"; "CountOpenPort"; "Ports"]).
    apply Forall_map, Forall_forall. by intros r _.
  - exists 3%nat. unfold print_ports. rewrite Hcsv.
    apply (emit_width ["Count"; "Port/Proto"; "ServiceName"]).
    apply Forall_map, Forall_forall. by intros r _.
  - exists 2%nat. unfold print_vendors. rewrite Hcsv.
    apply (emit_width ["Count"; "VendorName"]).
    apply Forall_map, Forall_forall. by intros r _.
  - exists 0%nat. constructor.
Qed.

Lemma X15_witness :
  outputCSV (Build_Flags "scan.xml" "22" true false false true) = true
  /\ exists n : nat,
      Forall (fun w => csv_width w = Some n)
             [CsvRecord ["Hostname"; "IPv4"; "MAC"; "Vendor"; "CountOpenPort"; "Ports"];
              CsvRecord [""; "10.0.0.1"; ""; ""; "2"; "22"];
              CsvRecord [""; "10.0.0.2"; ""; ""; "1"; "22"]].
Proof.
  split; [reflexivity|].
  exact (X15_csv_output_is_rectangular (runtime false)
           (Build_Flags "scan.xml" "22" true false false true) report_AB _ eq_refl eq_refl).
Defined.

Lemma hostname_mode_no_open_port (E : GoRuntime) (wherePorts : string) (nmap : NmapRun.t) :
  open_ports nmap = [] -> hostname_mode E wherePorts nmap = [].
Proof.
  intros Hnone. apply Permutation_nil_r. rewrite (hostname_mode_perm E).
  unfold host_table. rewrite omap_all_None; [done|]. intros h Hh. unfold host_row.
  rewrite existsb_all_false; [done|]. intros p Hp. unfold listed.
  destruct (is_open p) eqn:Hopen; [|done].
  pose proof (port_of_host_open nmap h p Hh Hp Hopen) as Hin.
  rewrite Hnone in Hin. by apply elem_of_nil in Hin.
Qed.

Lemma port_mode_no_open_port (E : GoRuntime) (nmap : NmapRun.t) :
  open_ports nmap = [] -> port_mode E nmap = [].
Proof.
  intros Hnone. apply Permutation_nil_r. rewrite (port_mode_perm E).
  unfold port_table. by rewrite Hnone.
Qed.

Lemma vendor_mode_no_mac (E : GoRuntime) (nmap : NmapRun.t) :
  mac_addresses nmap = [] -> vendor_mode E nmap = [].
Proof.
  intros Hnone. apply Permutation_nil_r. rewrite (vendor_mode_perm E).
  unfold vendor_table. by rewrite Hnone.
Qed.

(** X16.  A report with no open port and no address tagged mac, the report
    without host among them, is no error: the run returns normally and
    writes the header of the mode selected (in table format the header and
    the line of dashes) and no row. *)
Theorem X16_nothing_to_show_prints_header_only (E : GoRuntime) (flags : Flags)
    (nmap : NmapRun.t) :
  open_ports nmap = [] -> mac_addresses nmap = [] ->
  main E flags (Parsed nmap)
  = Return (if showHostnames flags then print_hosts (outputCSV flags) []
            else if showPorts flags then print_ports (outputCSV flags) []
            else if showVendors flags then print_vendors (outputCSV flags) []
            else []).
Proof.
  intros Hports Hmacs. unfold main.
  rewrite (hostname_mode_no_open_port E _ _ Hports), (port_mode_no_open_port E _ Hports),
    (vendor_mode_no_mac E _ Hmacs).
  by destruct (showHostnames flags), (showPorts flags), (showVendors flags).
Qed.

Lemma X16_witness :
  open_ports (NmapRun.mk []) = [] /\ mac_addresses (NmapRun.mk []) = []
  /\ main (runtime false) (Build_Flags "scan.xml" "" false true false false)
          (Parsed (NmapRun.mk []))
     = Return [tab_line ["Count"; "Port/Proto"; "ServiceName"];
               tab_line ["-----"; "----------"; "-----------"]].
Proof.
  split; [reflexivity|]. split; [reflexivity|].
  exact (X16_nothing_to_show_prints_header_only (runtime false)
           (Build_Flags "scan.xml" "" false true false false) (NmapRun.mk [])
           eq_refl eq_refl).
Defined.

Lemma X18_witness :
  Forall (fun h => NoDup (map port_key (List.filter is_open (Host.Ports h))))
         (NmapRun.Hosts report_AB)
  /\ PortInfo.mk "22/tcp" "ssh" 2 ∈ port_mode (runtime false) report_AB
  /\ PortInfo.Key (PortInfo.mk "22/tcp" "ssh" 2) = Go.Itoa 22 ++ "/" ++ "tcp"
  /\ PortInfo.Count (PortInfo.mk "22/tcp" "ssh" 2) = hosts_with_open 22 "tcp" report_AB.
Proof.
  assert (Forall (fun h => NoDup (map port_key (List.filter is_open (Host.Ports h))))
                 (NmapRun.Hosts report_AB)) as Hnodup.
  { change (NmapRun.Hosts report_AB) with [host_A; host_B].
    apply List.Forall_cons; [|apply List.Forall_cons; [|apply List.Forall_nil]].
    - change (NoDup ["22/tcp"; "80/tcp"]).
      apply NoDup_cons_2; [|apply NoDup_singleton].
      intros H. by apply list_elem_of_singleton in H.
    - change (NoDup ["22/tcp"]). apply NoDup_singleton. }
  assert (PortInfo.mk "22/tcp" "ssh" 2 ∈ port_mode (runtime false) report_AB) as Hrow.
  { vm_compute. left. }
  split; [exact Hnodup|]. split; [exact Hrow|]. split; [reflexivity|].
  exact (count_is_hosts_without_duplicates (runtime false) report_AB
           (PortInfo.mk "22/tcp" "ssh" 2) 22 "tcp" Hnodup Hrow eq_refl).
Defined.

(** ** Hostname mode and port mode count the same ports *)

Lemma host_table_total (hosts : list Host.t) :
  total (map HostInfo.CountOpen (omap (host_row "") hosts))
  = Z.of_nat (length (List.filter is_open (concat (map Host.Ports hosts)))).
Proof.
  induction hosts as [|h hosts IH]; [done|].
  cbn [map concat omap list_omap]. rewrite List.filter_app, length_app, Nat2Z.inj_add, <- IH.
  unfold host_row at 1. rewrite (existsb_same _ _ _ listed_no_filter).
  destruct (existsb is_open (Host.Ports h)) eqn:Hex.
  - done.
  - by rewrite (existsb_false_filter _ _ Hex).
Qed.

(** X19.  The two views count the same ports: the [CountOpen] of the rows
    of hostname mode without filter and the counts of the rows of port
    mode both add up to the number of open ports of the report. *)
Theorem X19_hosts_and_ports_same_total (E : GoRuntime) (nmap : NmapRun.t) :
  total (map HostInfo.CountOpen (hostname_mode E "" nmap))
  = Z.of_nat (length (open_ports nmap))
  /\ total (map HostInfo.CountOpen (hostname_mode E "" nmap))
     = total (map PortInfo.Count (port_mode E nmap)).
Proof.
  assert (total (map HostInfo.CountOpen (hostname_mode E "" nmap))
          = Z.of_nat (length (open_ports nmap))) as Htotal.
  { rewrite (total_perm _ (map HostInfo.CountOpen (host_table "" nmap)))
      by apply Permutation_map, hostname_mode_perm.
    apply host_table_total. }
  split; [done|]. by rewrite port_mode_total.
Qed.
